(** * gpypi2.portage_utils: a shallow embedding and its properties

    The module [gpypi2/portage_utils.py] is glue code around Portage: it reads
    the configuration snapshot [ENV], probes the file system, runs the external
    [ebuild] command and writes to a logger.  The embedding below keeps that
    shape: every function of the module is a computation in a state-and-
    exception monad over a [World] (file system, working directory, [ENV], log),
    Python exceptions are values of [exn], and the Python built-ins the module
    calls ([str.split], [str.strip], [os.path.join], [os.listdir], ...) are
    modelled next to it. *)

From Stdlib Require Import Ascii ZArith.
From stdpp Require Import base option list strings gmap.

Local Open Scope Z_scope.
Local Open Scope stdpp_scope.
Set Warnings "-register-all".

(** ** Python strings *)

(** [s.startswith(p)]. *)
Definition str_startswith (s p : string) : bool := String.prefix p s.

(** [s.endswith(p)]: some suffix of [s] is [p]. *)
Fixpoint str_endswith (s p : string) : bool :=
  if String.eqb s p then true
  else match s with
       | EmptyString => false
       | String _ s' => str_endswith s' p
       end.

(** [sub in s]: [sub] is a prefix of some suffix of [s]. *)
Fixpoint str_in (sub s : string) : bool :=
  if String.prefix sub s then true
  else match s with
       | EmptyString => false
       | String _ s' => str_in sub s'
       end.

(** [s.split(sep)] for a separator made of one character satisfying [is_sep]:
    fields are kept even when empty, and there is always at least one. *)
Fixpoint str_fields (is_sep : ascii -> bool) (s : string) : list string :=
  match s with
  | EmptyString => [EmptyString]
  | String c s' =>
      if is_sep c then EmptyString :: str_fields is_sep s'
      else match str_fields is_sep s' with
           | [] => [String c EmptyString]
           | f :: fs => String c f :: fs
           end
  end.

Definition str_split_on (sep : ascii) (s : string) : list string :=
  str_fields (Ascii.eqb sep) s.

(** The characters [str.strip()] and [str.split()] treat as white space:
    space, [\t], [\n], [\v], [\f], [\r]. *)
Definition is_space (c : ascii) : bool :=
  let n := nat_of_ascii c in
  (Nat.eqb n 32 || (Nat.leb 9 n && Nat.leb n 13))%bool.

Definition str_nonempty (s : string) : bool :=
  match s with EmptyString => false | String _ _ => true end.

(** [s.split()] without argument: the maximal runs of non-blank characters. *)
Definition str_split (s : string) : list string :=
  List.filter str_nonempty (str_fields is_space s).

Fixpoint str_lstrip (s : string) : string :=
  match s with
  | EmptyString => EmptyString
  | String c s' => if is_space c then str_lstrip s' else s
  end.

Fixpoint str_rstrip (s : string) : string :=
  match s with
  | EmptyString => EmptyString
  | String c s' =>
      match str_rstrip s' with
      | EmptyString => if is_space c then EmptyString else String c EmptyString
      | r => String c r
      end
  end.

(** [s.strip()]. *)
Definition str_strip (s : string) : string := str_rstrip (str_lstrip s).

(** What [readline()] returns on a freshly opened file with contents [s]: the
    text up to and including the first newline. *)
Fixpoint first_line (s : string) : string :=
  match s with
  | EmptyString => EmptyString
  | String c s' =>
      if Ascii.eqb c "010"%char then String c EmptyString
      else String c (first_line s')
  end.

(** [sep.join(l)]. *)
Fixpoint str_join (sep : string) (l : list string) : string :=
  match l with
  | [] => EmptyString
  | [x] => x
  | x :: l' => x +:+ sep +:+ str_join sep l'
  end.

Definition hex_digit (n : nat) : ascii :=
  ascii_of_nat (if Nat.ltb n 10 then 48 + n else 87 + n)%nat.

(** The escape [repr] writes for one character inside the quote [q]. *)
Definition repr_char (q c : ascii) : string :=
  let n := nat_of_ascii c in
  if Ascii.eqb c q || Ascii.eqb c "\"%char then String "\"%char (String c EmptyString)
  else if Nat.eqb n 9 then "\t"
  else if Nat.eqb n 10 then "\n"
  else if Nat.eqb n 13 then "\r"
  else if Nat.ltb n 32 || Nat.leb 127 n then
    String "\"%char (String "x"%char
      (String (hex_digit (n / 16)) (String (hex_digit (n mod 16)) EmptyString)))
  else String c EmptyString.

Fixpoint repr_body (q : ascii) (s : string) : string :=
  match s with
  | EmptyString => EmptyString
  | String c s' => repr_char q c +:+ repr_body q s'
  end.

Definition dquote : ascii := ascii_of_nat 34.
Definition squote : ascii := ascii_of_nat 39.

(** [repr(s)] of a byte string: single quotes, unless the string holds a single
    quote and no double quote. *)
Definition str_repr (s : string) : string :=
  let q :=
    if str_in (String squote EmptyString) s && negb (str_in (String dquote EmptyString) s)
    then dquote else squote in
  String q (repr_body q s) +:+ String q EmptyString.

(** [str(l)] of a list of byte strings, which is what ["%s" % l] inserts. *)
Definition list_repr (l : list string) : string :=
  "[" +:+ str_join ", " (map str_repr l) +:+ "]".

(** ** posixpath *)

Definition slash : ascii := "/"%char.

Definition os_path_isabs (p : string) : bool := str_startswith p "/".

(** One round of the loop of [os.path.join(a, *p)]. *)
Definition join_step (path b : string) : string :=
  if str_startswith b "/" then b
  else if String.eqb path "" || str_endswith path "/" then path +:+ b
  else path +:+ "/" +:+ b.

Definition os_path_join (a : string) (p : list string) : string :=
  fold_left join_step p a.

(** One round of the loop of [os.path.normpath]: [abs] is [initial_slashes],
    [new_comps] the components kept so far. *)
Definition normpath_step (abs : bool) (new_comps : list string) (comp : string)
  : list string :=
  if String.eqb comp "" || String.eqb comp "." then new_comps
  else if negb (String.eqb comp "..")
          || (negb abs && bool_decide (new_comps = []))
          || bool_decide (last new_comps = Some "..")
  then new_comps ++ [comp]
  else removelast new_comps.

Definition normpath_comps (abs : bool) (comps : list string) : list string :=
  fold_left (normpath_step abs) comps [].

(** The number [os.path.normpath] calls [initial_slashes]: POSIX keeps two
    leading slashes apart from one, and reads three or more as one. *)
Definition initial_slashes (path : string) : nat :=
  if str_startswith path "/" then
    if str_startswith path "//" && negb (str_startswith path "///")
    then 2%nat else 1%nat
  else 0%nat.

Definition os_path_normpath (path : string) : string :=
  if String.eqb path "" then "."
  else
    let comps := normpath_comps (negb (Nat.eqb (initial_slashes path) 0))
                                (str_split_on slash path) in
    let path' := str_join "/" comps in
    let path' := match initial_slashes path with
                 | 0%nat => path'
                 | 1%nat => "/" +:+ path'
                 | _ => "//" +:+ path'
                 end in
    if String.eqb path' "" then "." else path'.

(** ** The file system

    A tree of named entries.  A directory keeps its entries in the order
    [os.listdir] reports them.  A plain file carries its contents and whether
    it may be opened for reading.  There are no symbolic links, so a path is
    resolved by the lexical rules of [os.path.normpath], and
    [os.path.realpath] coincides with [os.path.abspath]. *)

Inductive node : Type :=
  | File (readable : bool) (content : string)
  | Dir (entries : list (string * node)).

Definition is_dir (n : node) : bool :=
  match n with Dir _ => true | File _ _ => false end.

Fixpoint assoc {A : Type} (k : string) (l : list (string * A)) : option A :=
  match l with
  | [] => None
  | (k', v) :: l' => if String.eqb k' k then Some v else assoc k l'
  end.

(** Replaces the first entry called [k]. *)
Fixpoint set_entry {A : Type} (k : string) (v : A) (l : list (string * A))
  : list (string * A) :=
  match l with
  | [] => []
  | (k', v') :: l' =>
      if String.eqb k' k then (k', v) :: l' else (k', v') :: set_entry k v l'
  end.

(** Removes the entries called [k]. *)
Fixpoint del_entry {A : Type} (k : string) (l : list (string * A))
  : list (string * A) :=
  match l with
  | [] => []
  | (k', v') :: l' =>
      if String.eqb k' k then del_entry k l' else (k', v') :: del_entry k l'
  end.

Fixpoint lookup_node (n : node) (cs : list string) : option node :=
  match cs with
  | [] => Some n
  | c :: cs' =>
      match n with
      | Dir es =>
          match assoc c es with
          | Some m => lookup_node m cs'
          | None => None
          end
      | File _ _ => None
      end
  end.

(** Removal of the plain file at [cs]; [None] when there is no plain file
    there (missing, or a directory). *)
Fixpoint unlink_at (n : node) (cs : list string) : option node :=
  match cs, n with
  | c :: cs', Dir es =>
      match assoc c es with
      | Some m =>
          match cs' with
          | [] => if is_dir m then None else Some (Dir (del_entry c es))
          | _ :: _ =>
              match unlink_at m cs' with
              | Some m' => Some (Dir (set_entry c m' es))
              | None => None
              end
          end
      | None => None
      end
  | _, _ => None
  end.

(** A chain of fresh, otherwise empty directories [c1/c2/.../cn]. *)
Fixpoint fresh_dirs (cs : list string) : node :=
  match cs with
  | [] => Dir []
  | c :: cs' => Dir [(c, fresh_dirs cs')]
  end.

(** [os.makedirs] below [n]: creates the leaf directory [cs] and every missing
    directory on the way; [None] when the leaf exists already or when a
    component on the way is a plain file. *)
Fixpoint makedirs_at (n : node) (cs : list string) : option node :=
  match n with
  | File _ _ => None
  | Dir es =>
      match cs with
      | [] => None
      | c :: cs' =>
          match assoc c es with
          | None => Some (Dir (es ++ [(c, fresh_dirs cs')]))
          | Some m =>
              match makedirs_at m cs' with
              | Some m' => Some (Dir (set_entry c m' es))
              | None => None
              end
          end
      end
  end.

(** Why [makedirs_at] failed: the leaf exists, or a plain file is in the way. *)
Fixpoint makedirs_error (n : node) (cs : list string) : string :=
  match cs, n with
  | [], _ => "[Errno 17] File exists"
  | _ :: _, File _ _ => "[Errno 20] Not a directory"
  | c :: cs', Dir es =>
      match assoc c es with
      | Some m => makedirs_error m cs'
      | None => "[Errno 2] No such file or directory"
      end
  end.

(** The first step of [os.path.abspath]: a relative path is joined to the
    working directory. *)
Definition absolute (cwd p : string) : string :=
  if os_path_isabs p then p else os_path_join cwd [p].

(** The components a path names, below the root of the file system. *)
Definition path_comps (cwd p : string) : list string :=
  normpath_comps true (str_split_on slash (absolute cwd p)).

Definition dir_names (es : list (string * node)) : list string :=
  map fst (List.filter (fun e => is_dir (snd e)) es).

Definition nondir_names (es : list (string * node)) : list string :=
  map fst (List.filter (fun e => negb (is_dir (snd e))) es).

(** What [os.walk(top)] yields, top-down, when [top] names the node [n]: the
    triple of a directory comes before the triples of its subdirectories, which
    follow in listing order.  A [top] that cannot be listed yields nothing. *)
Fixpoint walk_node (top : string) (n : node)
  : list (string * list string * list string) :=
  match n with
  | File _ _ => []
  | Dir es =>
      (top, dir_names es, nondir_names es)
        :: flat_map (fun e => if is_dir (snd e)
                              then walk_node (os_path_join top [fst e]) (snd e)
                              else []) es
  end.

(** ** Exceptions, the world, and the monad of the module's functions *)

Inductive exn : Type :=
  | OSError (msg : string)
  | IOError (msg : string)
  | KeyError (key : string)
  | IndexError
  | SystemExit (code : Z)
  | OtherError (name : string).

Inductive result (A : Type) : Type :=
  | Ret (a : A)
  | Raise (e : exn).
Arguments Ret {A} a.
Arguments Raise {A} e.

Inductive level : Type := WARNING | ERROR.

Record World : Type := mkWorld {
  fs : node;                       (* the root directory *)
  cwd : string;                    (* os.getcwd() *)
  ENV : gmap string string;        (* the module-level snapshot ENV *)
  log : list (level * string)      (* what the logger has emitted, oldest first *)
}.

Definition M (A : Type) : Type := World -> result A * World.

Definition ret {A : Type} (a : A) : M A := fun w => (Ret a, w).

Definition bind {A B : Type} (m : M A) (k : A -> M B) : M B :=
  fun w => match m w with
           | (Ret a, w') => k a w'
           | (Raise e, w') => (Raise e, w')
           end.

Definition raise {A : Type} (e : exn) : M A := fun w => (Raise e, w).

(** [try: m except <classes>: h]: [handler e] is [None] when no clause
    matches [e]. *)
Definition try_except {A : Type} (m : M A) (handler : exn -> option (M A)) : M A :=
  fun w => match m w with
           | (Ret a, w') => (Ret a, w')
           | (Raise e, w') =>
               match handler e with
               | Some h => h w'
               | None => (Raise e, w')
               end
           end.

Declare Scope py_scope.
Delimit Scope py_scope with py.
Notation "x <- m ;; k" := (bind m (fun x => k))
  (at level 100, m at next level, right associativity) : py_scope.
Notation "m ;; k" := (bind m (fun _ => k))
  (at level 100, right associativity) : py_scope.
Local Open Scope py_scope.

(** A [for] loop that threads an accumulator. *)
Fixpoint for_fold {A S : Type} (body : S -> A -> M S) (s : S) (l : list A) : M S :=
  match l with
  | [] => ret s
  | x :: l' => s' <- body s x ;; for_fold body s' l'
  end.

(** A list comprehension whose element expression has effects. *)
Fixpoint for_map {A B : Type} (f : A -> M B) (l : list A) : M (list B) :=
  match l with
  | [] => ret []
  | x :: l' => y <- f x ;; ys <- for_map f l' ;; ret (y :: ys)
  end.

(** A pure [for] loop left by [return]: the value of the first iteration that
    returns one. *)
Fixpoint for_return {A R : Type} (body : A -> option R) (l : list A) : option R :=
  match l with
  | [] => None
  | x :: l' => match body x with
               | Some r => Some r
               | None => for_return body l'
               end
  end.

Definition exn_str (e : exn) : string :=
  match e with
  | OSError msg | IOError msg => msg
  | KeyError k => str_repr k
  | IndexError => "list index out of range"
  | SystemExit _ => ""
  | OtherError name => name
  end.

Definition emit (lv : level) (msg : string) : M unit :=
  fun w => (Ret tt, mkWorld (fs w) (cwd w) (ENV w) (log w ++ [(lv, msg)])).

Definition log_warn : string -> M unit := emit WARNING.
Definition log_error : string -> M unit := emit ERROR.

(** [ENV[key]]. *)
Definition ENV_get (key : string) : M string :=
  fun w => match ENV w !! key with
           | Some v => (Ret v, w)
           | None => (Raise (KeyError key), w)
           end.

(** [l[i]]. *)
Definition list_index {A : Type} (l : list A) (i : nat) : M A :=
  match l !! i with
  | Some x => ret x
  | None => raise IndexError
  end.

Definition sys_exit {A : Type} (code : Z) : M A := raise (SystemExit code).

(** The node a path names; the empty path names nothing. *)
Definition stat (w : World) (p : string) : option node :=
  if String.eqb p "" then None else lookup_node (fs w) (path_comps (cwd w) p).

Definition os_path_abspath (p : string) : M string :=
  fun w => (Ret (os_path_normpath (absolute (cwd w) p)), w).

Definition os_path_realpath : string -> M string := os_path_abspath.

Definition os_path_isdir (p : string) : M bool :=
  fun w => (Ret (match stat w p with Some (Dir _) => true | _ => false end), w).

Definition os_listdir (p : string) : M (list string) :=
  fun w => match stat w p with
           | Some (Dir es) => (Ret (map fst es), w)
           | Some (File _ _) => (Raise (OSError "[Errno 20] Not a directory"), w)
           | None => (Raise (OSError "[Errno 2] No such file or directory"), w)
           end.

(** [open(p, 'r').readline()]. *)
Definition open_readline (p : string) : M string :=
  fun w => match stat w p with
           | Some (File true content) => (Ret (first_line content), w)
           | Some (File false _) => (Raise (IOError "[Errno 13] Permission denied"), w)
           | Some (Dir _) => (Raise (IOError "[Errno 21] Is a directory"), w)
           | None => (Raise (IOError "[Errno 2] No such file or directory"), w)
           end.

Definition with_fs (w : World) (root : node) : World :=
  mkWorld root (cwd w) (ENV w) (log w).

Definition os_unlink (p : string) : M unit :=
  fun w => match (if String.eqb p "" then None
                  else unlink_at (fs w) (path_comps (cwd w) p)) with
           | Some root => (Ret tt, with_fs w root)
           | None =>
               (Raise (OSError match stat w p with
                               | Some (Dir _) => "[Errno 21] Is a directory"
                               | _ => "[Errno 2] No such file or directory"
                               end), w)
           end.

Definition os_makedirs (p : string) : M unit :=
  fun w => match (if String.eqb p "" then None
                  else makedirs_at (fs w) (path_comps (cwd w) p)) with
           | Some root => (Ret tt, with_fs w root)
           | None =>
               (Raise (OSError (if String.eqb p ""
                                then "[Errno 2] No such file or directory"
                                else makedirs_error (fs w) (path_comps (cwd w) p))), w)
           end.

Definition os_walk (top : string) : M (list (string * list string * list string)) :=
  fun w => (Ret (match stat w top with
                 | Some n => walk_node top n
                 | None => []
                 end), w).

(** ** The external collaborators

    [commands.getstatusoutput] runs a shell command: it answers a wait status
    and the combined output, and may leave the file system changed.
    [gentoolkit.find_installed_packages] answers a list of package objects or
    raises; so may the [get_version] method of a package. *)

Record Package : Type := mkPackage { get_version : result string }.

Definition lift_result {A : Type} (r : result A) : M A := fun w => (r, w).

Section portage_utils.

Variable getstatusoutput : string -> World -> Z * string * node.
Variable find_installed_packages : string -> bool -> World -> result (list Package).

Definition commands_getstatusoutput (cmd : string) : M (Z * string) :=
  fun w => let '(status, output, root) := getstatusoutput cmd w in
           (Ret (status, output), with_fs w root).

Definition gentoolkit_find_installed_packages (cpn : string) (masked : bool)
  : M (list Package) :=
  fun w => (find_installed_packages cpn masked w, w).

(** ** The functions of portage_utils.py *)

Definition is_OSError_or_IOError (e : exn) : bool :=
  match e with OSError _ | IOError _ => true | _ => false end.

Definition get_repo_names : M (gmap string string) :=
  portdir <- ENV_get "PORTDIR" ;;
  overlay <- ENV_get "PORTDIR_OVERLAY" ;;
  overlays <- for_map os_path_realpath (str_split overlay) ;;
  let porttrees := [portdir] ++ overlays in
  for_fold
    (fun (treemap : gmap string string) path =>
       let repo_name_path := os_path_join path ["profiles/repo_name"] in
       try_except
         (line <- open_readline repo_name_path ;;
          let repo_name := str_strip line in
          ret (<[repo_name := path]> treemap))
         (fun e => if is_OSError_or_IOError e
                   then Some (log_warn ("No repo_name in " +:+ path) ;;
                              ret treemap)
                   else None))
    ∅ porttrees.

Definition get_installed_ver (cpn : string) : M (option string) :=
  try_except
    (pkgs <- gentoolkit_find_installed_packages cpn true ;;
     pkg <- list_index pkgs 0 ;;
     v <- lift_result (get_version pkg) ;;
     ret (Some v))
    (fun _ => Some (ret None)).

Definition unpack_ebuild (ebuild_path : string) : M unit :=
  so <- commands_getstatusoutput
          ("ebuild " +:+ ebuild_path +:+ " digest setup clean unpack") ;;
  let '(status, output) := so in
  if negb (Z.eqb status 0) then
    if str_in "does not follow correct package syntax" output then
      log_error output ;;
      log_error ("Misnamed ebuild: " +:+ ebuild_path) ;;
      log_error "Try using -n or -v to force PN or PV" ;;
      os_unlink ebuild_path
    else
      log_error output ;;
      raise (OSError "")
  else ret tt.

Definition get_portage_tmpdir : M string := ENV_get "PORTAGE_TMPDIR".

Definition get_workdir (p cat : string) : M string :=
  tmpdir <- get_portage_tmpdir ;;
  ret (tmpdir +:+ "/portage/" +:+ cat +:+ "/" +:+ p +:+ "/work").

Definition find_s_dir (p cat : string) : M (option string) :=
  workdir <- get_workdir p cat ;;
  files <- os_listdir workdir ;;
  dirs <- for_fold
            (fun dirs unpacked =>
               b <- os_path_isdir (os_path_join workdir [unpacked]) ;;
               if b then ret (dirs ++ [unpacked]) else ret dirs)
            [] files ;;
  if Nat.eqb (length dirs) 1 then
    d <- list_index dirs 0 ;; ret (Some d)
  else if Nat.eqb (length dirs) 0 then
    ret (Some "")
  else
    log_error "Can't determine ${S}" ;;
    log_error ("Unpacked multiple directories: " +:+ list_repr dirs) ;;
    ret None.

Definition get_keyword : M string :=
  arch <- try_except
            (v <- ENV_get "ACCEPT_KEYWORDS" ;;
             list_index (str_split_on " " v) 0)
            (fun e => match e with
                      | KeyError _ =>
                          Some (log_error "No ACCEPT_KEYWORDS found, using ~x86" ;;
                                ret "~x86")
                      | _ => None
                      end) ;;
  let arch := if negb (str_startswith arch "~") then "~" +:+ arch else arch in
  ret arch.

Definition make_overlay_dir (category pn overlay : string) : M string :=
  let ebuild_dir := os_path_join overlay [category; pn] in
  b <- os_path_isdir ebuild_dir ;;
  (if negb b then
     try_except (os_makedirs ebuild_dir)
       (fun err => match err with
                   | OSError _ => Some (log_error (exn_str err) ;; sys_exit 2)
                   | _ => None
                   end)
   else ret tt) ;;
  ret ebuild_dir.

Definition find_egg_info_dir (root : string) : M (option string) :=
  top <- os_path_abspath root ;;
  triples <- os_walk top ;;
  ret (for_return
         (fun '(path, dirs, files) =>
            for_return
              (fun this_dir =>
                 if str_endswith this_dir ".egg-info"
                 then Some (os_path_normpath (os_path_join path [this_dir; ".."]))
                 else None)
              dirs)
         triples).

End portage_utils.

(** ** Vocabulary of the statements *)

(** The text of [s] before its first space. *)
Fixpoint first_token (s : string) : string :=
  match s with
  | EmptyString => EmptyString
  | String c s' =>
      if Ascii.eqb " "%char c then EmptyString else String c (first_token s')
  end.

(** The world after the logger has emitted [records]. *)
Definition logged (w : World) (records : list (level * string)) : World :=
  mkWorld (fs w) (cwd w) (ENV w) (log w ++ records).

(** The command line [unpack_ebuild] runs. *)
Definition ebuild_cmd (ebuild_path : string) : string :=
  "ebuild " +:+ ebuild_path +:+ " digest setup clean unpack".

Definition misnamed_marker : string := "does not follow correct package syntax".

(** The name a directory entry can have. *)
Definition is_filename (name : string) : bool :=
  negb (String.eqb name "") && negb (String.eqb name ".")
  && negb (String.eqb name "..") && negb (str_in "/" name).

(** The entries of one directory carry file names, each once. *)
Definition wf_entries (es : list (string * node)) : Prop :=
  NoDup (map fst es) ∧ Forall (fun e => is_filename (fst e) = true) es.

#[global] Instance wf_entries_dec (es : list (string * node)) :
  Decision (wf_entries es).
Proof. unfold wf_entries. apply _. Defined.

(** The repository name [get_repo_names] reads below [root]: the first line of
    [<root>/profiles/repo_name], stripped, when that file can be opened. *)
Definition read_repo_name (w : World) (root : string) : option string :=
  match stat w (os_path_join root ["profiles/repo_name"]) with
  | Some (File true content) => Some (str_strip (first_line content))
  | _ => None
  end.

(** The same, for roots whose marker file is moreover not empty. *)
Definition read_nonempty_repo_name (w : World) (root : string) : option string :=
  match stat w (os_path_join root ["profiles/repo_name"]) with
  | Some (File true content) =>
      if String.eqb content "" then None
      else Some (str_strip (first_line content))
  | _ => None
  end.

(** The roots in the order [get_repo_names] visits them: [PORTDIR], then the
    overlays of [PORTDIR_OVERLAY] made canonical. *)
Definition porttrees_of (w : World) (portdir overlay : string) : list string :=
  portdir :: map (fun t => os_path_normpath (absolute (cwd w) t)) (str_split overlay).

Definition record_root (w : World) (treemap : gmap string string) (root : string)
  : gmap string string :=
  match read_repo_name w root with
  | Some name => <[name := root]> treemap
  | None => treemap
  end.

Definition repo_warnings (w : World) (roots : list string) : list (level * string) :=
  flat_map (fun root => match read_repo_name w root with
                        | Some _ => []
                        | None => [(WARNING, "No repo_name in " +:+ root)]
                        end) roots.

Definition is_egg_info (name : string) : bool := str_endswith name ".egg-info".

(** The names [os.walk] reports as directories in one of its triples. *)
Definition triple_dirs (t : string * list string * list string) : list string :=
  snd (fst t).

Definition egg_free (names : list string) : Prop :=
  Forall (fun name => is_egg_info name = false) names.

(** The directories below [top], depth first, each one before what it holds,
    brothers in listing order: the path and the name of each. *)
Fixpoint subdirs_preorder (top : string) (n : node) : list (string * string) :=
  match n with
  | File _ _ => []
  | Dir es =>
      flat_map (fun e => if is_dir (snd e)
                         then (os_path_join top [fst e], fst e)
                                :: subdirs_preorder (os_path_join top [fst e]) (snd e)
                         else []) es
  end.

(** The inner loop of [find_egg_info_dir] over the directories of one triple. *)
Definition egg_info_in (path : string) (dirs : list string) : option string :=
  for_return
    (fun this_dir =>
       if str_endswith this_dir ".egg-info"
       then Some (os_path_normpath (os_path_join path [this_dir; ".."]))
       else None)
    dirs.

(** The triples [find_egg_info_dir] iterates over: the walk of the absolute
    form of [root]. *)
Definition walk_of (w : World) (root : string)
  : list (string * list string * list string) :=
  let top := os_path_normpath (absolute (cwd w) root) in
  match stat w top with
  | Some n => walk_node top n
  | None => []
  end.

(** The reading "parent of the first directory, in depth-first pre-order, whose
    name ends with the suffix". *)
Definition preorder_egg_info_parent (w : World) (root : string) : option string :=
  let top := os_path_normpath (absolute (cwd w) root) in
  match stat w top with
  | Some n =>
      match List.find (fun d => is_egg_info (snd d)) (subdirs_preorder top n) with
      | Some (path, _) => Some (os_path_normpath (os_path_join path [".."]))
      | None => None
      end
  | None => None
  end.

(** [os.walk(top)] the way the standard library writes it, top-down: list
    [top], sort the names with [os.path.isdir], yield the triple, then walk
    each directory by its joined path.  [fuel] bounds the depth of the
    recursion; a listing that fails yields nothing. *)
Fixpoint os_walk_rec (fuel : nat) (w : World) (top : string)
  : list (string * list string * list string) :=
  match fuel with
  | O => []
  | S fuel' =>
      match fst (os_listdir top w) with
      | Ret names =>
          let isdir name :=
            match fst (os_path_isdir (os_path_join top [name]) w) with
            | Ret b => b
            | Raise _ => false
            end in
          let dirs := List.filter isdir names in
          let nondirs := List.filter (fun name => negb (isdir name)) names in
          (top, dirs, nondirs)
            :: flat_map (fun name => os_walk_rec fuel' w (os_path_join top [name])) dirs
      | Raise _ => []
      end
  end.

(** The number of nested directories of a tree. *)
Fixpoint height (n : node) : nat :=
  match n with
  | File _ _ => O
  | Dir es => S (fold_right (fun e h => Nat.max (height (snd e)) h) O es)
  end.

(** Every directory of the tree has well-formed entries. *)
Fixpoint wf_node (n : node) : Prop :=
  match n with
  | File _ _ => True
  | Dir es => wf_entries es /\ fold_right (fun e P => wf_node (snd e) /\ P) True es
  end.

(** ** Sample worlds *)

Definition sample_fs : node :=
  Dir [("usr", Dir [("portage", Dir [("profiles",
         Dir [("repo_name", File true (String.append "gentoo" (String "010"%char "")))])])]);
       ("overlay", Dir [("local", Dir [("profiles", Dir [("repo_name", File true "")])]);
                        ("foo-1.0.ebuild", File true "EAPI=2")]);
       ("tmp", Dir [("portage", Dir [("dev-python",
         Dir [("foo-1.0", Dir [("work", Dir [("foo-1.0", Dir []);
                                              ("README", File true "")])]);
              ("bar-2.0", Dir [("work", Dir [("bar", Dir []); ("docs", Dir [])])])])])]);
       ("src", Dir [("pkg", Dir [("foo.egg-info", Dir [])]);
                    ("bar.egg-info", Dir [])])].

Definition sample_env : gmap string string :=
  <["PORTDIR" := "/usr/portage"]>
    (<["PORTDIR_OVERLAY" := "/overlay/local /overlay/none"]>
       (<["PORTAGE_TMPDIR" := "/tmp"]> ∅)).

Definition sample_world : World := mkWorld sample_fs "/" sample_env [].

(** Two roots whose markers carry the same name. *)
Definition twin_world : World :=
  mkWorld
    (Dir [("usr", Dir [("portage", Dir [("profiles",
             Dir [("repo_name", File true "local")])])]);
          ("overlay", Dir [("profiles", Dir [("repo_name", File true " local ")])])])
    "/"
    (<["PORTDIR" := "/usr/portage"]> (<["PORTDIR_OVERLAY" := "/overlay"]> ∅))
    [].

(** An [ebuild] run that fails on a misnamed recipe, one that fails otherwise,
    and one that succeeds; none of them touches the file system. *)
Definition ebuild_misnamed (cmd : string) (w : World) : Z * string * node :=
  (256, "!!! foo.ebuild does not follow correct package syntax.", fs w).

Definition ebuild_broken (cmd : string) (w : World) : Z * string * node :=
  (256, "!!! Fetch failed", fs w).

Definition ebuild_fine (cmd : string) (w : World) : Z * string * node :=
  (0, ">>> Source unpacked.", fs w).

(** ** The rest of portage_utils.py

    [portage_dep.isvalidatom] answers a Python truth value (a [bool], which is
    an [int]) or raises; [gentoolkit.find_packages] answers a list of package
    objects or raises. *)

Section portage_queries.

Variable isvalidatom : string -> World -> result Z.
Variable find_packages : string -> World -> result (list Package).

Definition valid_cpn (cpn : string) : M bool :=
  v <- (fun w => (isvalidatom cpn w, w)) ;;
  if negb (Z.eqb v 0) then ret true else ret false.

Definition ebuild_exists (cat_pkg : string) : M bool :=
  pkgs <- (fun w => (find_packages cat_pkg w, w)) ;;
  if negb (Nat.eqb (length pkgs) 0) then ret true else ret false.

End portage_queries.

Definition get_portdir_overlay : M string :=
  v <- ENV_get "PORTDIR_OVERLAY" ;;
  list_index (str_split_on " " v) 0.

Definition get_portdir : M string := ENV_get "PORTDIR".

(** ** sdist_ebuild.py: the options of the command

    Of the command object only the attribute [dist_dir] is read or written by
    [initialize_options] and [finalize_options]; [None] is Python's [None]. *)

Record sdist_ebuild : Type := mk_sdist_ebuild { dist_dir : option string }.

Definition initialize_options (self : sdist_ebuild) : M sdist_ebuild :=
  ret (mk_sdist_ebuild None).

Definition finalize_options (self : sdist_ebuild) : M sdist_ebuild :=
  let d := match dist_dir self with
           | None => "dist"
           | Some d => d
           end in
  b <- os_path_isdir d ;;
  (if negb b then os_makedirs d else ret tt) ;;
  ret (mk_sdist_ebuild (Some d)).

(** ** Vocabulary of the further statements *)

(** No character of [s] is white space. *)
Fixpoint no_blank (s : string) : bool :=
  match s with
  | EmptyString => true
  | String c s' => negb (is_space c) && no_blank s'
  end.

(** Every character of [s] is white space. *)
Fixpoint all_blank (s : string) : bool :=
  match s with
  | EmptyString => true
  | String c s' => is_space c && all_blank s'
  end.

(** Components that are all file names. *)
Definition clean_comps (cs : list string) : Prop :=
  List.Forall (fun c => is_filename c = true) cs.

(** [w'] has the working directory and the configuration of [w], and its log
    continues the log of [w]. *)
Definition same_process (w w' : World) : Prop :=
  cwd w' = cwd w /\ ENV w' = ENV w /\ exists records, log w' = log w ++ records.

(** A world where a plain file is in the place of the directory [dist]. *)
Definition dist_file_world : World :=
  mkWorld (Dir [("dist", File true ""); ("setup.py", File true "")]) "/" ∅ [].

(** A world whose working directory holds a project without [dist]. *)
Definition project_world : World :=
  mkWorld (Dir [("home", Dir [("proj", Dir [("setup.py", File true "")])])])
          "/home/proj" ∅ [].

(** An [ebuild] run that succeeds although its output quotes the message of a
    misnamed recipe. *)
Definition ebuild_fine_noisy (cmd : string) (w : World) : Z * string * node :=
  (0, "QA: foo does not follow correct package syntax", fs w).

(** * Properties *)

(** ** The monad *)

Lemma ENV_get_some (key v : string) (w : World) :
  ENV w !! key = Some v -> ENV_get key w = (Ret v, w).
Proof. intros H. unfold ENV_get. now rewrite H. Qed.

Lemma ENV_get_none (key : string) (w : World) :
  ENV w !! key = None -> ENV_get key w = (Raise (KeyError key), w).
Proof. intros H. unfold ENV_get. now rewrite H. Qed.

Lemma logged_logged (w : World) (r1 r2 : list (level * string)) :
  logged (logged w r1) r2 = logged w (r1 ++ r2).
Proof. unfold logged. simpl. now rewrite app_assoc. Qed.

Lemma emit_logged (lv : level) (msg : string) (w : World) :
  emit lv msg w = (Ret tt, logged w [(lv, msg)]).
Proof. reflexivity. Qed.

(** ** get_keyword *)

Lemma str_fields_nonempty (f : ascii -> bool) (s : string) : str_fields f s <> [].
Proof.
  destruct s as [|c s]; cbn [str_fields]; [discriminate|].
  destruct (f c); [discriminate|].
  destruct (str_fields f s); discriminate.
Qed.

Lemma str_split_on_head (s : string) :
  str_split_on " " s !! 0%nat = Some (first_token s).
Proof.
  unfold str_split_on.
  induction s as [|c s IH]; cbn [str_fields first_token]; [reflexivity|].
  destruct (Ascii.eqb " " c); [reflexivity|].
  destruct (str_fields (Ascii.eqb " ") s) as [|f fs'] eqn:E.
  - now apply str_fields_nonempty in E.
  - cbn in IH. injection IH as ->. reflexivity.
Qed.

(** C7. [get_keyword] answers the first space-separated token of
    [ACCEPT_KEYWORDS], with ["~"] put in front unless the token already starts
    with it, and leaves the world alone; so ["x86 amd64"] gives ["~x86"] and
    ["~amd64"] gives ["~amd64"].  When the variable is absent it logs one error
    and answers ["~x86"]. *)
Theorem get_keyword_spec (w : World) :
  (forall v, ENV w !! "ACCEPT_KEYWORDS" = Some v ->
     get_keyword w =
       (Ret (if str_startswith (first_token v) "~" then first_token v
             else "~" +:+ first_token v), w))
  /\ (ENV w !! "ACCEPT_KEYWORDS" = Some "x86 amd64" ->
        get_keyword w = (Ret "~x86", w))
  /\ (ENV w !! "ACCEPT_KEYWORDS" = Some "~amd64" ->
        get_keyword w = (Ret "~amd64", w))
  /\ (ENV w !! "ACCEPT_KEYWORDS" = None ->
        get_keyword w =
          (Ret "~x86", logged w [(ERROR, "No ACCEPT_KEYWORDS found, using ~x86")])).
Proof.
  assert (Hsome : forall v, ENV w !! "ACCEPT_KEYWORDS" = Some v ->
     get_keyword w =
       (Ret (if str_startswith (first_token v) "~" then first_token v
             else "~" +:+ first_token v), w)).
  { intros v Hv. unfold get_keyword, bind, try_except, list_index.
    rewrite (ENV_get_some _ _ _ Hv), str_split_on_head. unfold ret.
    destruct (str_startswith (first_token v) "~"); reflexivity. }
  split; [exact Hsome|].
  split; [intros Hv; now rewrite (Hsome _ Hv)|].
  split; [intros Hv; now rewrite (Hsome _ Hv)|].
  intros Hnone. unfold get_keyword, bind, try_except.
  rewrite (ENV_get_none _ _ Hnone). reflexivity.
Qed.

Lemma get_keyword_spec_witness :
  get_keyword (mkWorld sample_fs "/" (<["ACCEPT_KEYWORDS" := "x86 amd64"]> sample_env) [])
  = (Ret "~x86",
     mkWorld sample_fs "/" (<["ACCEPT_KEYWORDS" := "x86 amd64"]> sample_env) [])
  /\ get_keyword (mkWorld sample_fs "/" (<["ACCEPT_KEYWORDS" := "~amd64"]> sample_env) [])
     = (Ret "~amd64",
        mkWorld sample_fs "/" (<["ACCEPT_KEYWORDS" := "~amd64"]> sample_env) [])
  /\ get_keyword sample_world
     = (Ret "~x86",
        logged sample_world [(ERROR, "No ACCEPT_KEYWORDS found, using ~x86")]).
Proof.
  split; [|split].
  - apply (proj1 (proj2 (get_keyword_spec
      (mkWorld sample_fs "/" (<["ACCEPT_KEYWORDS" := "x86 amd64"]> sample_env) [])))).
    reflexivity.
  - apply (proj1 (proj2 (proj2 (get_keyword_spec
      (mkWorld sample_fs "/" (<["ACCEPT_KEYWORDS" := "~amd64"]> sample_env) []))))).
    reflexivity.
  - apply (proj2 (proj2 (proj2 (get_keyword_spec sample_world)))). reflexivity.
Defined.

(** ** get_installed_ver *)

(** C8. [get_installed_ver] asks for the installed packages matching the
    identifier with masked packages included, and answers the version of the
    first one.  It answers nothing when the list is empty, when the lookup
    raises, whatever the exception, and when reading the version raises; it
    never raises itself and leaves the world alone. *)
Theorem get_installed_ver_spec
    (find_installed_packages : string -> bool -> World -> result (list Package))
    (cpn : string) (w : World) :
  (forall pkg rest v,
      find_installed_packages cpn true w = Ret (pkg :: rest) ->
      get_version pkg = Ret v ->
      get_installed_ver find_installed_packages cpn w = (Ret (Some v), w))
  /\ (find_installed_packages cpn true w = Ret [] ->
      get_installed_ver find_installed_packages cpn w = (Ret None, w))
  /\ (forall e,
      find_installed_packages cpn true w = Raise e ->
      get_installed_ver find_installed_packages cpn w = (Ret None, w))
  /\ (forall pkg rest e,
      find_installed_packages cpn true w = Ret (pkg :: rest) ->
      get_version pkg = Raise e ->
      get_installed_ver find_installed_packages cpn w = (Ret None, w))
  /\ (exists r, get_installed_ver find_installed_packages cpn w = (Ret r, w)).
Proof.
  unfold get_installed_ver, try_except, bind, gentoolkit_find_installed_packages,
    list_index, lift_result, ret, raise.
  repeat split.
  - intros pkg rest v -> Hv. cbn. now rewrite Hv.
  - intros ->. reflexivity.
  - intros e ->. reflexivity.
  - intros pkg rest e -> Hv. cbn. now rewrite Hv.
  - destruct (find_installed_packages cpn true w) as [[|pkg rest]|e]; cbn; eauto.
    destruct (get_version pkg); eauto.
Qed.

Lemma get_installed_ver_spec_witness :
  get_installed_ver
    (fun _ _ _ => Ret [mkPackage (Ret "1.0"); mkPackage (Ret "0.9")])
    "dev-python/foo" sample_world
  = (Ret (Some "1.0"), sample_world)
  /\ get_installed_ver (fun _ _ _ => Raise (OtherError "InvalidAtom"))
       "dev-python/foo" sample_world
     = (Ret None, sample_world).
Proof.
  split.
  - apply (proj1 (get_installed_ver_spec _ "dev-python/foo" sample_world)
             (mkPackage (Ret "1.0")) [mkPackage (Ret "0.9")] "1.0");
      reflexivity.
  - apply (proj1 (proj2 (proj2 (get_installed_ver_spec _ "dev-python/foo" sample_world)))
             (OtherError "InvalidAtom")).
    reflexivity.
Defined.

(** ** unpack_ebuild *)

Lemma assoc_set_entry {A : Type} (k : string) (v v0 : A) (es : list (string * A)) :
  assoc k es = Some v0 -> assoc k (set_entry k v es) = Some v.
Proof.
  induction es as [|[k' v'] es IH]; cbn; [discriminate|].
  destruct (String.eqb k' k) eqn:E; cbn; rewrite E; auto.
Qed.

Lemma assoc_del_entry {A : Type} (k : string) (es : list (string * A)) :
  assoc k (del_entry k es) = None.
Proof.
  induction es as [|[k' v'] es IH]; cbn; [reflexivity|].
  destruct (String.eqb k' k) eqn:E; cbn; [|rewrite E]; auto.
Qed.

(** Once a plain file is unlinked, its path names nothing. *)
Lemma unlink_at_gone (cs : list string) :
  forall n n', unlink_at n cs = Some n' -> lookup_node n' cs = None.
Proof.
  induction cs as [|c cs IH]; intros n n' H; [discriminate|].
  destruct n as [r s|es]; [discriminate|]. cbn in H.
  destruct (assoc c es) as [m|] eqn:Ea; [|discriminate].
  destruct cs as [|c' cs'].
  - destruct (is_dir m); [discriminate|]. injection H as <-.
    cbn. now rewrite assoc_del_entry.
  - destruct (unlink_at m (c' :: cs')) as [m'|] eqn:Eu; [|discriminate].
    injection H as <-. cbn [lookup_node].
    rewrite (assoc_set_entry _ _ _ _ Ea). now apply (IH m).
Qed.

(** A path that names a plain file can be unlinked. *)
Lemma unlink_at_file (cs : list string) :
  forall n r s, lookup_node n cs = Some (File r s) -> cs <> [] ->
                exists n', unlink_at n cs = Some n'.
Proof.
  induction cs as [|c cs IH]; intros n r s H Hne; [congruence|].
  destruct n as [r0 s0|es]; [discriminate|]. cbn in H. cbn [unlink_at].
  destruct (assoc c es) as [m|] eqn:Ea; [|discriminate].
  destruct cs as [|c' cs'].
  - cbn in H. injection H as ->. cbn. eauto.
  - destruct (IH m r s H) as [m' ->]; [discriminate|]. eauto.
Qed.

Lemma lookup_node_root_file (n : node) (cs : list string) (r : bool) (s : string) :
  is_dir n = true -> lookup_node n cs = Some (File r s) -> cs <> [].
Proof. intros Hd H ->. cbn in H. injection H as ->. discriminate. Qed.

Lemma unpack_ebuild_success
    (getstatusoutput : string -> World -> Z * string * node)
    (ebuild_path : string) (w : World) (output : string) (root : node) :
  getstatusoutput (ebuild_cmd ebuild_path) w = (0, output, root) ->
  unpack_ebuild getstatusoutput ebuild_path w = (Ret tt, with_fs w root).
Proof.
  intros H. unfold unpack_ebuild, bind, commands_getstatusoutput.
  fold (ebuild_cmd ebuild_path). now rewrite H.
Qed.

(** C2. When the command exits with a nonzero status and its output lacks the
    misnamed-recipe message, [unpack_ebuild] logs the output and raises
    [OSError]; the file system the caller finds is the one the command left, so
    the recipe path still names what it named then. *)
Theorem unpack_ebuild_failure
    (getstatusoutput : string -> World -> Z * string * node)
    (ebuild_path : string) (w : World) (status : Z) (output : string) (root : node) :
  getstatusoutput (ebuild_cmd ebuild_path) w = (status, output, root) ->
  status <> 0 ->
  str_in misnamed_marker output = false ->
  unpack_ebuild getstatusoutput ebuild_path w
    = (Raise (OSError ""), logged (with_fs w root) [(ERROR, output)])
  /\ stat (snd (unpack_ebuild getstatusoutput ebuild_path w)) ebuild_path
     = stat (with_fs w root) ebuild_path.
Proof.
  intros H Hs Hm.
  assert (E : unpack_ebuild getstatusoutput ebuild_path w
              = (Raise (OSError ""), logged (with_fs w root) [(ERROR, output)])).
  { unfold unpack_ebuild, bind, commands_getstatusoutput.
    fold (ebuild_cmd ebuild_path). rewrite H.
    apply Z.eqb_neq in Hs. rewrite Hs. cbn [negb].
    fold misnamed_marker. rewrite Hm. reflexivity. }
  split; [exact E|]. now rewrite E.
Qed.

Lemma unpack_ebuild_failure_witness :
  unpack_ebuild ebuild_broken "/overlay/foo-1.0.ebuild" sample_world
    = (Raise (OSError ""), logged sample_world [(ERROR, "!!! Fetch failed")])
  /\ stat (snd (unpack_ebuild ebuild_broken "/overlay/foo-1.0.ebuild" sample_world))
          "/overlay/foo-1.0.ebuild"
     = Some (File true "EAPI=2").
Proof.
  apply (unpack_ebuild_failure ebuild_broken "/overlay/foo-1.0.ebuild" sample_world
           256 "!!! Fetch failed" sample_fs); [reflexivity|lia|reflexivity].
Defined.

(** The misnamed branch, line by line.  When the command exits with a nonzero
    status, its output holds the misnamed-recipe message and the recipe path
    names a plain file, [unpack_ebuild] logs the output, the misnamed-recipe
    line and the hint, unlinks the recipe, after which the path names nothing,
    and returns normally. *)
Theorem unpack_ebuild_misnamed
    (getstatusoutput : string -> World -> Z * string * node)
    (ebuild_path : string) (w : World) (status : Z) (output : string) (root : node)
    (r : bool) (content : string) :
  getstatusoutput (ebuild_cmd ebuild_path) w = (status, output, root) ->
  status <> 0 ->
  str_in misnamed_marker output = true ->
  is_dir root = true ->
  stat (with_fs w root) ebuild_path = Some (File r content) ->
  exists root',
    unpack_ebuild getstatusoutput ebuild_path w
      = (Ret tt,
         logged (with_fs w root')
           [(ERROR, output);
            (ERROR, "Misnamed ebuild: " +:+ ebuild_path);
            (ERROR, "Try using -n or -v to force PN or PV")])
    /\ stat (with_fs w root') ebuild_path = None.
Proof.
  intros H Hs Hm Hd Hf.
  unfold unpack_ebuild, bind, commands_getstatusoutput.
  fold (ebuild_cmd ebuild_path). rewrite H.
  apply Z.eqb_neq in Hs. rewrite Hs. cbn [negb].
  fold misnamed_marker. rewrite Hm.
  unfold log_error. rewrite !emit_logged.
  unfold stat in Hf |- *. unfold os_unlink. cbn [fs cwd logged with_fs] in *.
  destruct (String.eqb ebuild_path "") eqn:Ee; [discriminate|].
  destruct (unlink_at_file _ _ _ _ Hf) as [root' Hu].
  { now apply (lookup_node_root_file root _ r content). }
  exists root'. rewrite Hu. split.
  - unfold logged, with_fs. cbn. now rewrite <- !app_assoc.
  - now apply unlink_at_gone in Hu.
Qed.

Lemma unpack_ebuild_misnamed_witness :
  exists root',
    unpack_ebuild ebuild_misnamed "/overlay/foo-1.0.ebuild" sample_world
      = (Ret tt,
         logged (with_fs sample_world root')
           [(ERROR, "!!! foo.ebuild does not follow correct package syntax.");
            (ERROR, "Misnamed ebuild: /overlay/foo-1.0.ebuild");
            (ERROR, "Try using -n or -v to force PN or PV")])
    /\ stat (with_fs sample_world root') "/overlay/foo-1.0.ebuild" = None.
Proof.
  apply (unpack_ebuild_misnamed ebuild_misnamed "/overlay/foo-1.0.ebuild"
           sample_world 256
           "!!! foo.ebuild does not follow correct package syntax." sample_fs
           true "EAPI=2"); [reflexivity|lia|reflexivity|reflexivity|reflexivity].
Defined.

(** A run on a misnamed recipe hands the caller [Ret tt], the very value of a
    successful run, so the two cannot be told apart by what is returned.  Here
    the command exits with status 256 and prints the message. *)
Lemma unpack_ebuild_misnamed_not_distinct :
  ~ (forall (getstatusoutput : string -> World -> Z * string * node)
            (ebuild_path : string) (w : World)
            (status : Z) (output : string) (root : node),
        getstatusoutput (ebuild_cmd ebuild_path) w = (status, output, root) ->
        status <> 0 ->
        str_in misnamed_marker output = true ->
        fst (unpack_ebuild getstatusoutput ebuild_path w)
          <> fst (unpack_ebuild ebuild_fine ebuild_path w)).
Proof.
  intros H.
  apply (H ebuild_misnamed "/overlay/foo-1.0.ebuild" sample_world 256
           "!!! foo.ebuild does not follow correct package syntax." sample_fs);
    [reflexivity|lia|reflexivity|reflexivity].
Qed.

(** C1.  The module falls short of this.  Its docstring promises "None if
    succeed, raises OSError if fails to unpack", and the other failure branch
    does raise.  Yet at this input, where the command exits with status 256 and
    prints the misnamed-recipe message, the unpack has failed and the caller is
    told nothing: the three lines are logged and the recipe is unlinked, but
    the function falls off its end and returns [None], the value a successful
    run returns. *)
Lemma unpack_ebuild_misnamed_returns_like_success :
  ebuild_misnamed (ebuild_cmd "/overlay/foo-1.0.ebuild") sample_world
    = (256, "!!! foo.ebuild does not follow correct package syntax.", sample_fs)
  /\ str_in misnamed_marker
            "!!! foo.ebuild does not follow correct package syntax." = true
  /\ fst (unpack_ebuild ebuild_misnamed "/overlay/foo-1.0.ebuild" sample_world)
     = Ret tt
  /\ fst (unpack_ebuild ebuild_fine "/overlay/foo-1.0.ebuild" sample_world)
     = Ret tt
  /\ fst (unpack_ebuild ebuild_broken "/overlay/foo-1.0.ebuild" sample_world)
     = Raise (OSError "")
  /\ log (snd (unpack_ebuild ebuild_misnamed "/overlay/foo-1.0.ebuild" sample_world))
     = [(ERROR, "!!! foo.ebuild does not follow correct package syntax.");
        (ERROR, "Misnamed ebuild: /overlay/foo-1.0.ebuild");
        (ERROR, "Try using -n or -v to force PN or PV")]
  /\ stat sample_world "/overlay/foo-1.0.ebuild" = Some (File true "EAPI=2")
  /\ stat (snd (unpack_ebuild ebuild_misnamed "/overlay/foo-1.0.ebuild" sample_world))
          "/overlay/foo-1.0.ebuild" = None.
Proof. repeat split; reflexivity. Qed.

(** ** find_s_dir *)

Lemma get_workdir_eq (p cat tmpdir : string) (w : World) :
  ENV w !! "PORTAGE_TMPDIR" = Some tmpdir ->
  get_workdir p cat w
    = (Ret (tmpdir +:+ "/portage/" +:+ cat +:+ "/" +:+ p +:+ "/work"), w).
Proof.
  intros H. unfold get_workdir, get_portage_tmpdir, bind.
  now rewrite (ENV_get_some _ _ _ H).
Qed.

(** C10. When the work directory [<tmpdir>/portage/<cat>/<p>/work] does not
    exist, [find_s_dir] gives none of its documented answers: the listing
    raises [OSError], which reaches the caller, and the world is unchanged. *)
Theorem find_s_dir_missing_workdir (p cat tmpdir : string) (w : World) :
  ENV w !! "PORTAGE_TMPDIR" = Some tmpdir ->
  stat w (tmpdir +:+ "/portage/" +:+ cat +:+ "/" +:+ p +:+ "/work") = None ->
  find_s_dir p cat w
    = (Raise (OSError "[Errno 2] No such file or directory"), w).
Proof.
  intros Henv Hstat. unfold find_s_dir, bind.
  rewrite (get_workdir_eq _ _ _ _ Henv). unfold os_listdir. now rewrite Hstat.
Qed.

Lemma find_s_dir_missing_workdir_witness :
  find_s_dir "foo-1.0" "dev-lang" sample_world
    = (Raise (OSError "[Errno 2] No such file or directory"), sample_world).
Proof.
  apply (find_s_dir_missing_workdir "foo-1.0" "dev-lang" "/tmp" sample_world);
    reflexivity.
Defined.

(** ** Strings and paths *)

Lemma str_app_cons (x : ascii) (a b : string) :
  String x a +:+ b = String x (a +:+ b).
Proof. reflexivity. Qed.

Lemma str_app_nil_l (b : string) : "" +:+ b = b.
Proof. reflexivity. Qed.

Lemma str_app_assoc (a b c : string) : (a +:+ b) +:+ c = a +:+ b +:+ c.
Proof.
  induction a as [|x a IH]; [reflexivity|]. now rewrite !str_app_cons, IH.
Qed.

Lemma str_app_nil_r (a : string) : a +:+ "" = a.
Proof.
  induction a as [|x a IH]; [reflexivity|]. now rewrite str_app_cons, IH.
Qed.

Lemma str_prefix_nil (s : string) : String.prefix "" s = true.
Proof. destruct s; reflexivity. Qed.

Lemma str_endswith_app (s p : string) :
  str_endswith s p = true -> exists pre, s = pre +:+ p.
Proof.
  induction s as [|c s IH]; cbn [str_endswith].
  - destruct (String.eqb_spec "" p) as [<-|]; [|discriminate]. now exists "".
  - destruct (String.eqb_spec (String c s) p) as [<-|]; [now exists ""|].
    intros H. destruct (IH H) as [pre ->]. now exists (String c pre).
Qed.

Lemma str_endswith_iff (s p : string) :
  str_endswith s p = true <-> exists pre, s = pre +:+ p.
Proof.
  split; [apply str_endswith_app|]. intros [pre ->].
  induction pre as [|c pre IH].
  - rewrite str_app_nil_l. destruct p; cbn [str_endswith];
      now rewrite String.eqb_refl.
  - rewrite str_app_cons. cbn [str_endswith]. rewrite IH.
    now destruct (String.eqb _ _).
Qed.

Lemma str_prefix_iff (a s : string) :
  String.prefix a s = true <-> exists post, s = a +:+ post.
Proof.
  revert s. induction a as [|c a IH]; intros s.
  - rewrite str_prefix_nil. split; [now exists s|reflexivity].
  - destruct s as [|c' s]; cbn [String.prefix].
    + split; [discriminate|]. now intros [post H].
    + destruct (Ascii.ascii_dec c c') as [<-|Hne].
      * rewrite IH. split; intros [post H]; exists post.
        -- now rewrite str_app_cons, H.
        -- rewrite str_app_cons in H. now injection H.
      * split; [discriminate|]. intros [post H].
        rewrite str_app_cons in H. injection H as E _. congruence.
Qed.

(** [sub in s] holds exactly when [s] is some text, then [sub], then some
    text. *)
Lemma str_in_iff (sub s : string) :
  str_in sub s = true <-> exists pre post, s = pre +:+ sub +:+ post.
Proof.
  split.
  - induction s as [|c s IH]; cbn [str_in].
    + destruct (String.prefix sub "") eqn:E; [|discriminate]. intros _.
      apply str_prefix_iff in E as [post E]. now exists "", post.
    + destruct (String.prefix sub (String c s)) eqn:E.
      * intros _. apply str_prefix_iff in E as [post E]. now exists "", post.
      * intros H. destruct (IH H) as (pre & post & ->).
        now exists (String c pre), post.
  - intros (pre & post & ->). induction pre as [|c pre IH].
    + rewrite str_app_nil_l.
      assert (E : String.prefix sub (sub +:+ post) = true)
        by (apply str_prefix_iff; now exists post).
      destruct (sub +:+ post); cbn [str_in]; now rewrite E.
    + rewrite str_app_cons. cbn [str_in]. rewrite IH.
      now destruct (String.prefix _ _).
Qed.

Lemma str_fields_app_sep (f : ascii -> bool) (a b : string) (c : ascii) :
  f c = true ->
  str_fields f (a +:+ String c b) = str_fields f a ++ str_fields f b.
Proof.
  intros Hc. induction a as [|x a IH].
  - rewrite str_app_nil_l. cbn [str_fields]. now rewrite Hc.
  - rewrite str_app_cons. cbn [str_fields].
    destruct (f x); rewrite IH; [reflexivity|].
    destruct (str_fields f a) as [|h t] eqn:E; [|reflexivity].
    now apply str_fields_nonempty in E.
Qed.

Lemma str_in_char_cons (sep c : ascii) (s : string) :
  str_in (String sep "") (String c s) = false ->
  Ascii.eqb sep c = false /\ str_in (String sep "") s = false.
Proof.
  cbn [str_in String.prefix].
  destruct (Ascii.ascii_dec sep c) as [->|Hne].
  - now rewrite str_prefix_nil.
  - intros H. split; [now apply Ascii.eqb_neq|exact H].
Qed.

Lemma str_fields_single (sep : ascii) (name : string) :
  str_in (String sep "") name = false ->
  str_fields (Ascii.eqb sep) name = [name].
Proof.
  induction name as [|c s IH]; intros H; cbn [str_fields]; [reflexivity|].
  apply str_in_char_cons in H as [-> H]. now rewrite (IH H).
Qed.

Lemma is_filename_inv (name : string) :
  is_filename name = true ->
  name <> "" /\ name <> "." /\ name <> ".." /\ str_in "/" name = false.
Proof.
  unfold is_filename. rewrite !andb_true_iff, !negb_true_iff, !String.eqb_neq.
  tauto.
Qed.

Lemma filename_not_abs (name : string) :
  is_filename name = true -> str_startswith name "/" = false.
Proof.
  intros H. apply is_filename_inv in H as (Hne & _ & _ & H).
  destruct name as [|c s]; [congruence|].
  apply str_in_char_cons in H as [H _]. unfold str_startswith.
  cbn [String.prefix]. destruct (Ascii.ascii_dec "/" c) as [<-|]; [|reflexivity].
  discriminate.
Qed.

Lemma normpath_comps_snoc (abs : bool) (xs : list string) (c : string) :
  normpath_comps abs (xs ++ [c]) = normpath_step abs (normpath_comps abs xs) c.
Proof. unfold normpath_comps. now rewrite fold_left_app. Qed.

Lemma normpath_step_filename (abs : bool) (cs : list string) (name : string) :
  is_filename name = true -> normpath_step abs cs name = cs ++ [name].
Proof.
  intros H. apply is_filename_inv in H as (H1 & H2 & H3 & _).
  unfold normpath_step.
  apply String.eqb_neq in H1, H2, H3. now rewrite H1, H2, H3.
Qed.

Lemma normpath_step_empty (abs : bool) (cs : list string) :
  normpath_step abs cs "" = cs.
Proof. reflexivity. Qed.

Lemma startswith_app (top x : string) :
  top <> "" -> str_startswith (top +:+ x) "/" = str_startswith top "/".
Proof.
  intros H. destruct top as [|c t]; [congruence|]. unfold str_startswith.
  rewrite str_app_cons. cbn [String.prefix].
  destruct (Ascii.ascii_dec "/" c); [now rewrite !str_prefix_nil|reflexivity].
Qed.

(** Appending to a non-empty path commutes with making it absolute. *)
Lemma absolute_app (cwd top x : string) :
  top <> "" -> absolute cwd (top +:+ x) = absolute cwd top +:+ x.
Proof.
  intros H. unfold absolute, os_path_isabs, os_path_join. cbn [fold_left].
  unfold join_step. rewrite (startswith_app top x H).
  destruct (str_startswith top "/"); [reflexivity|].
  destruct (String.eqb cwd "" || str_endswith cwd "/");
    now rewrite !str_app_assoc.
Qed.

Lemma split_on_slash_snoc (a name : string) :
  str_in "/" name = false ->
  str_split_on slash (a +:+ "/" +:+ name) = str_split_on slash a ++ [name].
Proof.
  intros H. unfold str_split_on.
  change ("/" +:+ name) with (String slash name).
  rewrite str_fields_app_sep by reflexivity.
  now rewrite (str_fields_single slash name H).
Qed.

Lemma absolute_slash_end (cwd top : string) :
  str_endswith top "/" = true -> exists a, absolute cwd top = a +:+ "/".
Proof.
  intros E. apply str_endswith_app in E as [pre ->].
  destruct (String.eqb_spec pre "") as [->|Hpre].
  - now exists "".
  - exists (absolute cwd pre). now apply absolute_app.
Qed.

(** The path of an entry of a directory names the directory's components
    followed by the entry's name. *)
Lemma path_comps_join (cwd top name : string) :
  top <> "" -> is_filename name = true ->
  path_comps cwd (os_path_join top [name]) = path_comps cwd top ++ [name].
Proof.
  intros Htop Hname. unfold path_comps, os_path_join. cbn [fold_left].
  unfold join_step. rewrite (filename_not_abs _ Hname).
  apply String.eqb_neq in Htop as Htop'. rewrite Htop'. cbn [orb].
  pose proof (is_filename_inv _ Hname) as (_ & _ & _ & Hslash).
  destruct (str_endswith top "/") eqn:E.
  - rewrite absolute_app by assumption.
    destruct (absolute_slash_end cwd top E) as [a ->].
    rewrite str_app_assoc, split_on_slash_snoc by assumption.
    rewrite <- (str_app_nil_r (a +:+ "/")).
    rewrite str_app_assoc, split_on_slash_snoc by reflexivity.
    rewrite !normpath_comps_snoc, normpath_step_empty.
    now rewrite normpath_step_filename.
  - rewrite absolute_app by assumption.
    rewrite split_on_slash_snoc by assumption.
    rewrite normpath_comps_snoc. now rewrite normpath_step_filename.
Qed.

(** ** Entries of a directory *)

Lemma lookup_node_snoc (cs : list string) (c : string) :
  forall n, lookup_node n (cs ++ [c])
            = match lookup_node n cs with
              | Some (Dir es) => assoc c es
              | _ => None
              end.
Proof.
  induction cs as [|c' cs IH]; intros n.
  - destruct n as [r s|es]; [reflexivity|]. cbn.
    destruct (assoc c es); reflexivity.
  - destruct n as [r s|es]; [reflexivity|]. cbn.
    destruct (assoc c' es); [apply IH|reflexivity].
Qed.

Lemma assoc_in {A : Type} (k : string) (v : A) (es : list (string * A)) :
  NoDup (map fst es) -> In (k, v) es -> assoc k es = Some v.
Proof.
  induction es as [|[k' v'] es IH]; cbn; [tauto|].
  intros Hnd [Heq|Hin].
  - injection Heq as -> ->. now rewrite String.eqb_refl.
  - apply NoDup_cons in Hnd as [Hk Hnd'].
    destruct (String.eqb_spec k' k) as [->|].
    + exfalso. apply Hk. apply list_elem_of_In.
      change k with (fst (k, v)). now apply in_map.
    + now apply IH.
Qed.

Lemma str_app_nonempty (a b : string) : b <> "" -> a +:+ b <> "".
Proof. destruct a; [now rewrite str_app_nil_l|discriminate]. Qed.

Lemma os_path_join_nonempty (top name : string) :
  top <> "" -> os_path_join top [name] <> "".
Proof.
  intros H. unfold os_path_join. cbn [fold_left]. unfold join_step.
  destruct (str_startswith name "/") eqn:E.
  - destruct name; [discriminate|discriminate].
  - destruct top as [|c t]; [congruence|].
    destruct (_ || _); discriminate.
Qed.

(** The path of a directory entry names that entry. *)
Lemma stat_entry (w : World) (top : string) (es : list (string * node))
    (name : string) (m : node) :
  stat w top = Some (Dir es) -> wf_entries es -> In (name, m) es ->
  stat w (os_path_join top [name]) = Some m.
Proof.
  intros Hs [Hnd Hfn] Hin. unfold stat in *.
  destruct (String.eqb_spec top "") as [|Htop]; [discriminate|].
  destruct (String.eqb_spec (os_path_join top [name]) "") as [E|_].
  { now apply os_path_join_nonempty in E. }
  rewrite List.Forall_forall in Hfn. specialize (Hfn _ Hin). cbn in Hfn.
  rewrite path_comps_join, lookup_node_snoc, Hs by assumption.
  exact (assoc_in _ _ _ Hnd Hin).
Qed.

(** [os.path.isdir] on the path of a directory entry tells whether the entry
    is a directory. *)
Lemma isdir_entry (w : World) (top : string) (es : list (string * node))
    (name : string) (m : node) :
  stat w top = Some (Dir es) -> wf_entries es -> In (name, m) es ->
  os_path_isdir (os_path_join top [name]) w = (Ret (is_dir m), w).
Proof.
  intros Hs Hwf Hin. unfold os_path_isdir.
  rewrite (stat_entry w top es name m Hs Hwf Hin). now destruct m.
Qed.

(** The loop of [find_s_dir] keeps the names of the entries that are
    directories, in listing order. *)
Lemma find_s_dir_loop (w : World) (workdir : string) (es : list (string * node)) :
  stat w workdir = Some (Dir es) -> wf_entries es ->
  forall l acc, incl l es ->
    for_fold
      (fun dirs unpacked =>
         bind (os_path_isdir (os_path_join workdir [unpacked]))
              (fun b => if b then ret (dirs ++ [unpacked]) else ret dirs))
      acc (map fst l) w
    = (Ret (acc ++ dir_names l), w).
Proof.
  intros Hs Hwf. induction l as [|[name m] l IH]; intros acc Hincl.
  - cbn. unfold ret. now rewrite app_nil_r.
  - cbn [map fst for_fold]. unfold bind at 1.
    unfold bind at 1.
    rewrite (isdir_entry w workdir es name m Hs Hwf) by (apply Hincl; now left).
    assert (Hl : incl l es) by (intros x Hx; apply Hincl; now right).
    unfold dir_names. cbn [List.filter snd].
    destruct m as [r s|es']; cbn [is_dir ret].
    + unfold ret at 1. now rewrite IH.
    + unfold ret at 1. rewrite IH by assumption. cbn [map fst].
      unfold dir_names. now rewrite <- app_assoc.
Qed.

(** C3. With the work directory [<tmpdir>/portage/<cat>/<p>/work] listed,
    [find_s_dir] keeps the names of the entries that are directories and
    ignores plain files.  One such name: it is returned.  None: the empty
    string is returned.  Two or more: two errors are logged, the second naming
    every candidate, and the caller gets [None], the answer that stands for
    "could not find S", not one of the candidates. *)
Theorem find_s_dir_spec (p cat tmpdir : string) (w : World)
    (es : list (string * node)) :
  ENV w !! "PORTAGE_TMPDIR" = Some tmpdir ->
  stat w (tmpdir +:+ "/portage/" +:+ cat +:+ "/" +:+ p +:+ "/work") = Some (Dir es) ->
  wf_entries es ->
  find_s_dir p cat w
    = match dir_names es with
      | [] => (Ret (Some ""), w)
      | [d] => (Ret (Some d), w)
      | dirs =>
          (Ret None,
           logged w [(ERROR, "Can't determine ${S}");
                     (ERROR, "Unpacked multiple directories: " +:+ list_repr dirs)])
      end.
Proof.
  intros Henv Hs Hwf. unfold find_s_dir. unfold bind at 1.
  rewrite (get_workdir_eq _ _ _ _ Henv). unfold bind at 1.
  unfold os_listdir. rewrite Hs. unfold bind at 1.
  rewrite (find_s_dir_loop w _ es Hs Hwf es []) by apply incl_refl.
  rewrite app_nil_l.
  destruct (dir_names es) as [|d [|d' ds]]; cbn [length Nat.eqb];
    [reflexivity|reflexivity|].
  unfold bind, log_error. rewrite !emit_logged. unfold ret.
  now rewrite logged_logged.
Qed.

Lemma find_s_dir_spec_witness :
  find_s_dir "foo-1.0" "dev-python" sample_world = (Ret (Some "foo-1.0"), sample_world)
  /\ find_s_dir "bar-2.0" "dev-python" sample_world
     = (Ret None,
        logged sample_world
          [(ERROR, "Can't determine ${S}");
           (ERROR, "Unpacked multiple directories: ['bar', 'docs']")]).
Proof.
  split.
  - apply (find_s_dir_spec "foo-1.0" "dev-python" "/tmp" sample_world
             [("foo-1.0", Dir []); ("README", File true "")]);
      [reflexivity|reflexivity|].
    now apply (bool_decide_unpack _).
  - apply (find_s_dir_spec "bar-2.0" "dev-python" "/tmp" sample_world
             [("bar", Dir []); ("docs", Dir [])]);
      [reflexivity|reflexivity|].
    now apply (bool_decide_unpack _).
Defined.

(** ** get_repo_names *)

Lemma stat_logged (w : World) (recs : list (level * string)) (p : string) :
  stat (logged w recs) p = stat w p.
Proof. reflexivity. Qed.

Lemma for_map_realpath (l : list string) (w : World) :
  for_map os_path_realpath l w
    = (Ret (map (fun t => os_path_normpath (absolute (cwd w) t)) l), w).
Proof.
  induction l as [|t l IH]; [reflexivity|].
  cbn [for_map map]. unfold bind at 1. unfold os_path_realpath at 1.
  unfold os_path_abspath at 1. unfold bind at 1. now rewrite IH.
Qed.

(** One round of the loop: a readable marker records its name, any other
    marker costs a warning. *)
Lemma get_repo_names_round (w : World) (recs : list (level * string))
    (treemap : gmap string string) (path : string) :
  try_except
    (bind (open_readline (os_path_join path ["profiles/repo_name"]))
          (fun line => ret (<[str_strip line := path]> treemap)))
    (fun e => if is_OSError_or_IOError e
              then Some (bind (log_warn ("No repo_name in " +:+ path))
                              (fun _ => ret treemap))
              else None)
    (logged w recs)
  = (Ret (record_root w treemap path), logged w (recs ++ repo_warnings w [path])).
Proof.
  unfold try_except, bind, open_readline, record_root, repo_warnings, read_repo_name.
  rewrite stat_logged. cbn [flat_map].
  destruct (stat w (os_path_join path ["profiles/repo_name"])) as [[[|] content|es]|];
    cbn; unfold logged; cbn; now rewrite ?app_nil_r, <- ?app_assoc.
Qed.

Lemma get_repo_names_loop (w : World) (roots : list string) :
  forall (treemap : gmap string string) (recs : list (level * string)),
    for_fold
      (fun (treemap : gmap string string) path =>
         try_except
           (bind (open_readline (os_path_join path ["profiles/repo_name"]))
                 (fun line => ret (<[str_strip line := path]> treemap)))
           (fun e => if is_OSError_or_IOError e
                     then Some (bind (log_warn ("No repo_name in " +:+ path))
                                     (fun _ => ret treemap))
                     else None))
      treemap roots (logged w recs)
    = (Ret (fold_left (record_root w) roots treemap),
       logged w (recs ++ repo_warnings w roots)).
Proof.
  induction roots as [|path roots IH]; intros treemap recs.
  - cbn. unfold ret. now rewrite app_nil_r.
  - cbn [for_fold fold_left]. unfold bind at 1.
    rewrite get_repo_names_round, IH.
    unfold repo_warnings. cbn [flat_map]. now rewrite app_nil_r, <- app_assoc.
Qed.

Lemma logged_nil (w : World) : logged w [] = w.
Proof. destruct w. unfold logged. cbn. now rewrite app_nil_r. Qed.

(** What [get_repo_names] computes when both variables are set. *)
Lemma get_repo_names_eq (w : World) (portdir overlay : string) :
  ENV w !! "PORTDIR" = Some portdir ->
  ENV w !! "PORTDIR_OVERLAY" = Some overlay ->
  get_repo_names w
    = (Ret (fold_left (record_root w) (porttrees_of w portdir overlay) ∅),
       logged w (repo_warnings w (porttrees_of w portdir overlay))).
Proof.
  intros Hp Ho. unfold get_repo_names. unfold bind at 1.
  rewrite (ENV_get_some _ _ _ Hp). unfold bind at 1.
  rewrite (ENV_get_some _ _ _ Ho). unfold bind at 1.
  rewrite for_map_realpath.
  rewrite <- (logged_nil w) at 1.
  cbn [app]. fold (porttrees_of w portdir overlay).
  now rewrite get_repo_names_loop.
Qed.

Lemma dom_record_roots (w : World) (roots : list string) :
  forall treemap : gmap string string,
    dom (fold_left (record_root w) roots treemap)
    = dom treemap ∪ list_to_set (omap (read_repo_name w) roots).
Proof.
  induction roots as [|root roots IH]; intros treemap; cbn [fold_left].
  - change (omap (read_repo_name w) []) with (@nil string).
    now rewrite list_to_set_nil, union_empty_r_L.
  - rewrite IH. unfold record_root.
    change (omap (read_repo_name w) (root :: roots))
      with (match read_repo_name w root with
            | Some y => y :: omap (read_repo_name w) roots
            | None => omap (read_repo_name w) roots
            end).
    destruct (read_repo_name w root) as [name|]; [|reflexivity].
    rewrite dom_insert_L, list_to_set_cons.
    now rewrite (comm_L (∪) {[name]} (dom treemap)), (assoc_L (∪)).
Qed.

Lemma record_roots_keep (w : World) (name : string) (roots : list string) :
  Forall (fun root => read_repo_name w root <> Some name) roots ->
  forall treemap : gmap string string,
    fold_left (record_root w) roots treemap !! name = treemap !! name.
Proof.
  induction 1 as [|root roots Hroot _ IH]; intros treemap; cbn [fold_left];
    [reflexivity|].
  rewrite IH. unfold record_root.
  destruct (read_repo_name w root) as [name'|]; [|reflexivity].
  apply lookup_insert_ne. congruence.
Qed.

(** C4, as the module has it.  With [PORTDIR] and [PORTDIR_OVERLAY] set,
    [get_repo_names] returns normally a mapping whose keys are exactly the
    names read from the roots whose [profiles/repo_name] can be opened, an
    empty marker file giving the empty name; every other root costs one
    warning, in visiting order, and nothing else in the world changes. *)
Theorem get_repo_names_keys (w : World) (portdir overlay : string) :
  ENV w !! "PORTDIR" = Some portdir ->
  ENV w !! "PORTDIR_OVERLAY" = Some overlay ->
  exists treemap : gmap string string,
    get_repo_names w
      = (Ret treemap, logged w (repo_warnings w (porttrees_of w portdir overlay)))
    /\ dom treemap
       = list_to_set (omap (read_repo_name w) (porttrees_of w portdir overlay)).
Proof.
  intros Hp Ho. eexists. split; [now apply get_repo_names_eq|].
  now rewrite dom_record_roots, dom_empty_L, union_empty_l_L.
Qed.

Lemma get_repo_names_keys_witness :
  exists treemap : gmap string string,
    get_repo_names sample_world
      = (Ret treemap,
         logged sample_world [(WARNING, "No repo_name in /overlay/none")])
    /\ dom treemap = list_to_set ["gentoo"; ""].
Proof.
  exact (get_repo_names_keys sample_world "/usr/portage"
           "/overlay/local /overlay/none" eq_refl eq_refl).
Defined.

(** C4 as stated fails: a root whose marker file is readable but empty is not
    left out, it is recorded under the empty name.  In [sample_world] the
    overlay [/overlay/local] has such a marker. *)
Lemma get_repo_names_empty_marker :
  ~ (forall (w : World) (portdir overlay : string),
        ENV w !! "PORTDIR" = Some portdir ->
        ENV w !! "PORTDIR_OVERLAY" = Some overlay ->
        exists treemap : gmap string string,
          fst (get_repo_names w) = Ret treemap
          /\ dom treemap
             = list_to_set (omap (read_nonempty_repo_name w)
                                 (porttrees_of w portdir overlay))).
Proof.
  intros H.
  destruct (H sample_world "/usr/portage" "/overlay/local /overlay/none"
              eq_refl eq_refl) as (treemap & H1 & H2).
  assert (Hin : "" ∈ dom treemap).
  { apply elem_of_dom. exists "/overlay/local".
    rewrite (get_repo_names_eq sample_world _ _ eq_refl eq_refl) in H1.
    cbn [fst] in H1. injection H1 as <-. reflexivity. }
  rewrite H2 in Hin. apply elem_of_list_to_set, list_elem_of_In in Hin.
  vm_compute in Hin. destruct Hin as [Hin|[]]. discriminate.
Qed.

(** C5. The entry of a name is the path of the last root, in visiting order
    ([PORTDIR] first, then the overlays as listed), whose marker reads that
    name: a later root overwrites an earlier one of the same name.  A name has
    one entry at most. *)
Theorem get_repo_names_last_wins (w : World) (portdir overlay : string) :
  ENV w !! "PORTDIR" = Some portdir ->
  ENV w !! "PORTDIR_OVERLAY" = Some overlay ->
  exists treemap : gmap string string,
    fst (get_repo_names w) = Ret treemap
    /\ (forall earlier path later name,
          porttrees_of w portdir overlay = earlier ++ path :: later ->
          read_repo_name w path = Some name ->
          Forall (fun root => read_repo_name w root <> Some name) later ->
          treemap !! name = Some path)
    /\ (forall name path1 path2,
          treemap !! name = Some path1 -> treemap !! name = Some path2 ->
          path1 = path2).
Proof.
  intros Hp Ho. rewrite (get_repo_names_eq w _ _ Hp Ho).
  eexists. split; [reflexivity|]. split; [|congruence].
  intros earlier path later name -> Hpath Hlater.
  rewrite fold_left_app. cbn [fold_left].
  rewrite (record_roots_keep w name later Hlater).
  unfold record_root at 1. rewrite Hpath. apply lookup_insert_eq.
Qed.

Lemma get_repo_names_last_wins_witness :
  exists treemap : gmap string string,
    fst (get_repo_names twin_world) = Ret treemap
    /\ treemap !! "local" = Some "/overlay".
Proof.
  destruct (get_repo_names_last_wins twin_world "/usr/portage" "/overlay"
              eq_refl eq_refl) as (treemap & H1 & H2 & _).
  exists treemap. split; [exact H1|].
  apply (H2 ["/usr/portage"] "/overlay" [] "local");
    [reflexivity|reflexivity|constructor].
Defined.

(** ** make_overlay_dir *)

Lemma assoc_app_fresh {A : Type} (k : string) (v : A) (es : list (string * A)) :
  assoc k es = None -> assoc k (es ++ [(k, v)]) = Some v.
Proof.
  induction es as [|[k' v'] es IH]; cbn.
  - now rewrite String.eqb_refl.
  - destruct (String.eqb k' k); [discriminate|exact IH].
Qed.

Lemma lookup_fresh_dirs (cs : list string) :
  lookup_node (fresh_dirs cs) cs = Some (Dir []).
Proof.
  induction cs as [|c cs IH]; cbn; [reflexivity|].
  now rewrite String.eqb_refl.
Qed.

(** After [os.makedirs] has succeeded, the leaf is a directory. *)
Lemma makedirs_at_isdir (cs : list string) :
  forall n n', makedirs_at n cs = Some n' ->
               exists es, lookup_node n' cs = Some (Dir es).
Proof.
  induction cs as [|c cs IH]; intros n n' H.
  - destruct n; discriminate.
  - destruct n as [r s|es]; [discriminate|]. cbn in H.
    destruct (assoc c es) as [m|] eqn:Ea.
    + destruct (makedirs_at m cs) as [m'|] eqn:Em; [|discriminate].
      injection H as <-. cbn [lookup_node].
      rewrite (assoc_set_entry _ _ _ _ Ea). now apply (IH m).
    + injection H as <-. cbn [lookup_node].
      rewrite (assoc_app_fresh _ _ _ Ea). exists []. apply lookup_fresh_dirs.
Qed.

Lemma lookup_node_app (cs1 cs2 : list string) :
  forall n, lookup_node n (cs1 ++ cs2)
            = match lookup_node n cs1 with
              | Some m => lookup_node m cs2
              | None => None
              end.
Proof.
  induction cs1 as [|c cs1 IH]; intros n; [reflexivity|].
  destruct n as [r s|es]; [reflexivity|]. cbn.
  destruct (assoc c es); [apply IH|reflexivity].
Qed.

(** Whatever lies on the way to a directory is a directory. *)
Lemma lookup_prefix_dir (n : node) (cs1 cs2 : list string) (es : list (string * node)) :
  lookup_node n (cs1 ++ cs2) = Some (Dir es) ->
  exists es1, lookup_node n cs1 = Some (Dir es1).
Proof.
  rewrite lookup_node_app.
  destruct (lookup_node n cs1) as [[r s|es1]|]; [|eauto|discriminate].
  destruct cs2; discriminate.
Qed.

Lemma endswith_slash_app (a b : string) :
  b <> "" -> str_endswith (a +:+ b) "/" = str_endswith b "/".
Proof.
  intros Hb. induction a as [|c a IH]; [reflexivity|].
  rewrite str_app_cons. cbn [str_endswith]. rewrite IH.
  destruct (String.eqb_spec (String c (a +:+ b)) "/") as [E|]; [|reflexivity].
  injection E as _ E. destruct a; [now rewrite str_app_nil_l in E|discriminate].
Qed.

Lemma endswith_slash_filename (name : string) :
  str_in "/" name = false -> str_endswith name "/" = false.
Proof.
  induction name as [|c s IH]; intros H; [reflexivity|].
  apply str_in_char_cons in H as [Hc H]. cbn [str_endswith]. rewrite (IH H).
  destruct (String.eqb_spec (String c s) "/") as [E|]; [|reflexivity].
  injection E as -> _. now rewrite Ascii.eqb_refl in Hc.
Qed.

(** For ordinary segments [os.path.join] writes the segments with a slash
    between them. *)
Lemma os_path_join_segments (overlay category pn : string) :
  overlay <> "" -> str_endswith overlay "/" = false ->
  is_filename category = true -> is_filename pn = true ->
  os_path_join overlay [category; pn]
    = overlay +:+ "/" +:+ category +:+ "/" +:+ pn.
Proof.
  intros Ho He Hc Hp. unfold os_path_join. cbn [fold_left]. unfold join_step.
  rewrite (filename_not_abs _ Hc), (filename_not_abs _ Hp), He.
  apply String.eqb_neq in Ho. rewrite Ho. cbn [orb].
  apply is_filename_inv in Hc as (Hc1 & _ & _ & Hc2).
  rewrite <- str_app_assoc, endswith_slash_app by assumption.
  rewrite (endswith_slash_filename _ Hc2).
  destruct (String.eqb_spec ((overlay +:+ "/") +:+ category) "") as [E|_].
  - destruct overlay; discriminate.
  - cbn [orb]. now rewrite !str_app_assoc.
Qed.

Lemma make_overlay_dir_exists (category pn overlay : string) (w : World) :
  fst (os_path_isdir (os_path_join overlay [category; pn]) w) = Ret true ->
  make_overlay_dir category pn overlay w
    = (Ret (os_path_join overlay [category; pn]), w).
Proof.
  unfold make_overlay_dir, bind, os_path_isdir.
  generalize (os_path_join overlay [category; pn]). intros d H.
  cbn [fst] in H. injection H as H. now rewrite H.
Qed.

(** C6. [make_overlay_dir] answers the path [os.path.join(overlay, category,
    pn)].  If that is a directory already, nothing else happens.  Otherwise
    [os.makedirs] runs: when it succeeds the path and everything on the way to
    it are directories afterwards; when it raises, the error is logged and
    [sys.exit(2)] ends the process.  Calling again after a call that returned
    returns the same path and changes nothing. *)
Theorem make_overlay_dir_spec (category pn overlay : string) (w : World) :
  let ebuild_dir := os_path_join overlay [category; pn] in
  (fst (os_path_isdir ebuild_dir w) = Ret true ->
     make_overlay_dir category pn overlay w = (Ret ebuild_dir, w))
  /\ (forall w',
        fst (os_path_isdir ebuild_dir w) = Ret false ->
        os_makedirs ebuild_dir w = (Ret tt, w') ->
        make_overlay_dir category pn overlay w = (Ret ebuild_dir, w')
        /\ fst (os_path_isdir ebuild_dir w') = Ret true
        /\ (forall cs1 cs2,
              path_comps (cwd w') ebuild_dir = cs1 ++ cs2 ->
              exists es, lookup_node (fs w') cs1 = Some (Dir es)))
  /\ (forall e w',
        fst (os_path_isdir ebuild_dir w) = Ret false ->
        os_makedirs ebuild_dir w = (Raise e, w') ->
        make_overlay_dir category pn overlay w
          = (Raise (SystemExit 2), logged w' [(ERROR, exn_str e)]))
  /\ (forall r w',
        make_overlay_dir category pn overlay w = (Ret r, w') ->
        make_overlay_dir category pn overlay w' = (Ret r, w'))
  /\ (overlay <> "" -> str_endswith overlay "/" = false ->
      is_filename category = true -> is_filename pn = true ->
      ebuild_dir = overlay +:+ "/" +:+ category +:+ "/" +:+ pn).
Proof.
  intros ebuild_dir.
  assert (Hmade : forall w', os_makedirs ebuild_dir w = (Ret tt, w') ->
            exists es, stat w' ebuild_dir = Some (Dir es)).
  { intros w' Hm. unfold os_makedirs in Hm. unfold stat.
    destruct (String.eqb ebuild_dir ""); [discriminate|].
    destruct (makedirs_at (fs w) (path_comps (cwd w) ebuild_dir)) as [root|] eqn:E;
      [|discriminate].
    injection Hm as <-. cbn [fs cwd with_fs]. now apply makedirs_at_isdir in E. }
  assert (H1 : forall w0, fst (os_path_isdir ebuild_dir w0) = Ret true ->
            make_overlay_dir category pn overlay w0 = (Ret ebuild_dir, w0))
    by apply make_overlay_dir_exists.
  assert (H2 : forall w', fst (os_path_isdir ebuild_dir w) = Ret false ->
            os_makedirs ebuild_dir w = (Ret tt, w') ->
            make_overlay_dir category pn overlay w = (Ret ebuild_dir, w')).
  { intros w' Hd Hm. unfold make_overlay_dir, bind, try_except.
    fold ebuild_dir. unfold os_path_isdir in *. cbn [fst] in Hd.
    injection Hd as Hd. rewrite Hd. cbn [negb]. now rewrite Hm. }
  assert (Hdir : forall w', os_makedirs ebuild_dir w = (Ret tt, w') ->
            fst (os_path_isdir ebuild_dir w') = Ret true).
  { intros w' Hm. destruct (Hmade w' Hm) as [es Hes].
    unfold os_path_isdir. now rewrite Hes. }
  assert (H3 : forall e w', fst (os_path_isdir ebuild_dir w) = Ret false ->
            os_makedirs ebuild_dir w = (Raise e, w') ->
            make_overlay_dir category pn overlay w
              = (Raise (SystemExit 2), logged w' [(ERROR, exn_str e)])).
  { intros e w' Hd Hm. unfold make_overlay_dir, bind, try_except.
    fold ebuild_dir. unfold os_path_isdir in *. cbn [fst] in Hd.
    injection Hd as Hd. rewrite Hd. cbn [negb]. rewrite Hm.
    unfold os_makedirs in Hm.
    destruct (if String.eqb ebuild_dir "" then None
              else makedirs_at (fs w) (path_comps (cwd w) ebuild_dir));
      [discriminate|].
    injection Hm as <- <-. reflexivity. }
  split; [apply H1|]. split; [|split; [|split; [|apply os_path_join_segments]]].
  - intros w' Hd Hm. split; [now apply H2|]. split; [now apply Hdir|].
    intros cs1 cs2 Hcs. destruct (Hmade w' Hm) as [es Hes].
    unfold stat in Hes. destruct (String.eqb ebuild_dir ""); [discriminate|].
    rewrite Hcs in Hes. now apply lookup_prefix_dir in Hes.
  - exact H3.
  - intros r w' Hr.
    destruct (os_path_isdir ebuild_dir w) as [[[|]|e] w0] eqn:Ed.
    + rewrite H1 in Hr by now rewrite Ed. injection Hr as <- <-.
      apply H1. now rewrite Ed.
    + destruct (os_makedirs ebuild_dir w) as [[[]|e] w1] eqn:Em.
      * rewrite (H2 w1) in Hr by (now rewrite ?Ed). injection Hr as <- <-.
        apply H1. now apply Hdir.
      * rewrite (H3 e w1) in Hr by (now rewrite ?Ed). discriminate.
    + unfold os_path_isdir in Ed. discriminate.
Qed.

Lemma make_overlay_dir_spec_witness :
  exists w',
    make_overlay_dir "dev-python" "foo" "/overlay/local" sample_world
      = (Ret "/overlay/local/dev-python/foo", w')
    /\ fst (os_path_isdir "/overlay/local/dev-python/foo" w') = Ret true
    /\ make_overlay_dir "dev-python" "foo" "/overlay/local" w'
       = (Ret "/overlay/local/dev-python/foo", w').
Proof.
  destruct (make_overlay_dir_spec "dev-python" "foo" "/overlay/local" sample_world)
    as (_ & Hnew & _ & Hagain & _).
  destruct (os_makedirs "/overlay/local/dev-python/foo" sample_world) as [r w'] eqn:E.
  exists w'. vm_compute in E. injection E as <- <-.
  destruct (Hnew _ eq_refl eq_refl) as (Hret & Hdir & _).
  split; [exact Hret|]. split; [exact Hdir|]. exact (Hagain _ _ Hret).
Defined.

(** A plain file in the way: the error is logged and the process exits with
    status 2. *)
Lemma make_overlay_dir_blocked :
  make_overlay_dir "foo-1.0.ebuild" "foo" "/overlay" sample_world
    = (Raise (SystemExit 2),
       logged sample_world [(ERROR, "[Errno 20] Not a directory")]).
Proof. reflexivity. Qed.

(** ** find_egg_info_dir *)

Lemma for_return_none {A R : Type} (body : A -> option R) (l : list A) :
  for_return body l = None <-> List.Forall (fun x => body x = None) l.
Proof.
  induction l as [|x l IH]; cbn [for_return].
  - split; [constructor|reflexivity].
  - destruct (body x) as [r|] eqn:E.
    + split; [discriminate|]. intros H. inversion H; congruence.
    + rewrite IH. split; [now constructor|]. intros H. now inversion H.
Qed.

Lemma for_return_first {A R : Type} (body : A -> option R)
    (before : list A) (x : A) (after : list A) (r : R) :
  List.Forall (fun y => body y = None) before -> body x = Some r ->
  for_return body (before ++ x :: after) = Some r.
Proof.
  intros Hb Hx. induction Hb as [|y before Hy _ IH]; cbn [app for_return].
  - now rewrite Hx.
  - now rewrite Hy.
Qed.

Lemma egg_info_in_none (path : string) (dirs : list string) :
  egg_info_in path dirs = None <-> egg_free dirs.
Proof.
  unfold egg_info_in, egg_free, is_egg_info. rewrite for_return_none.
  split; intros H; eapply List.Forall_impl; try exact H; cbn; intros d Hd.
  - now destruct (str_endswith d ".egg-info").
  - now rewrite Hd.
Qed.

Lemma egg_info_in_first (path : string) (before : list string) (d : string)
    (after : list string) :
  egg_free before -> is_egg_info d = true ->
  egg_info_in path (before ++ d :: after)
    = Some (os_path_normpath (os_path_join path [d; ".."])).
Proof.
  intros Hb Hd. unfold egg_info_in. apply for_return_first.
  - eapply List.Forall_impl; [|exact Hb]. cbn. intros x Hx.
    unfold is_egg_info in Hx. now rewrite Hx.
  - unfold is_egg_info in Hd. now rewrite Hd.
Qed.

Lemma for_return_ext {A R : Type} (f g : A -> option R) (l : list A) :
  (forall x, f x = g x) -> for_return f l = for_return g l.
Proof.
  intros H. induction l as [|x l IH]; cbn [for_return]; [reflexivity|].
  now rewrite H, IH.
Qed.

Lemma find_egg_info_dir_eq (root : string) (w : World) :
  find_egg_info_dir root w
    = (Ret (for_return (fun t => egg_info_in (fst (fst t)) (triple_dirs t))
                       (walk_of w root)), w).
Proof.
  unfold find_egg_info_dir, bind, os_path_abspath, os_walk, ret, walk_of.
  f_equal. f_equal. apply for_return_ext. now intros [[path dirs] files].
Qed.

Lemma join_dotdot (p d : string) :
  p <> "" -> is_filename d = true ->
  os_path_join p [d; ".."]
    = if str_endswith p "/" then p +:+ d +:+ "/.." else p +:+ "/" +:+ d +:+ "/..".
Proof.
  intros Hp Hd. unfold os_path_join. cbn [fold_left]. unfold join_step at 2.
  rewrite (filename_not_abs _ Hd). apply String.eqb_neq in Hp as Hp'.
  rewrite Hp'. cbn [orb].
  pose proof (is_filename_inv _ Hd) as (Hd1 & _ & _ & Hd2).
  assert (Hpd : forall a, join_step (a +:+ d) ".." = a +:+ d +:+ "/..").
  { intros a. unfold join_step.
    replace (str_startswith ".." "/") with false by reflexivity.
    rewrite endswith_slash_app, (endswith_slash_filename _ Hd2) by assumption.
    destruct (String.eqb_spec (a +:+ d) "") as [E|_].
    - now apply str_app_nonempty in E.
    - cbn [orb]. now rewrite str_app_assoc. }
  destruct (str_endswith p "/").
  - apply Hpd.
  - rewrite <- (str_app_assoc p "/" d), Hpd. now rewrite str_app_assoc.
Qed.

Lemma filename_head (d : string) :
  is_filename d = true -> exists e d', d = String e d' /\ e <> "/"%char.
Proof.
  intros Hd. apply is_filename_inv in Hd as (Hd1 & _ & _ & Hd2).
  destruct d as [|e d']; [congruence|]. exists e, d'. split; [reflexivity|].
  apply str_in_char_cons in Hd2 as [H _]. apply Ascii.eqb_neq in H. congruence.
Qed.

Ltac prefix_cases :=
  rewrite ?str_app_cons, ?str_app_nil_l; cbn [String.prefix];
  repeat match goal with
         | |- context [Ascii.ascii_dec ?a ?b] =>
             destruct (Ascii.ascii_dec a b); subst; try congruence
         end;
  rewrite ?str_prefix_nil; try reflexivity.

Lemma initial_slashes_join (p d : string) :
  p <> "" -> is_filename d = true ->
  initial_slashes (os_path_join p [d; ".."]) = initial_slashes p.
Proof.
  intros Hp Hd. rewrite join_dotdot by assumption.
  destruct (filename_head d Hd) as (e & d' & -> & He).
  unfold initial_slashes, str_startswith.
  destruct p as [|c1 [|c2 [|c3 r]]]; [congruence| | |].
  - destruct (Ascii.ascii_dec "/" c1) as [<-|Hc1].
    + change (str_endswith "/" "/") with true. cbn iota. prefix_cases.
    + destruct (str_endswith _ _); prefix_cases.
  - destruct (Ascii.ascii_dec "/" c1) as [<-|Hc1];
      [destruct (Ascii.ascii_dec "/" c2) as [<-|Hc2]|].
    + change (str_endswith "//" "/") with true. cbn iota. prefix_cases.
    + destruct (str_endswith _ _); prefix_cases.
    + destruct (str_endswith _ _); prefix_cases.
  - destruct (str_endswith _ _); prefix_cases.
Qed.

Lemma normpath_step_dotdot (abs : bool) (cs : list string) (d : string) :
  is_filename d = true -> normpath_step abs (cs ++ [d]) ".." = cs.
Proof.
  intros Hd. apply is_filename_inv in Hd as (_ & _ & Hd & _).
  unfold normpath_step. cbn [String.eqb Ascii.eqb Bool.eqb orb negb].
  rewrite last_snoc.
  rewrite (bool_decide_eq_false_2 (cs ++ [d] = [])) by (now destruct cs).
  rewrite (bool_decide_eq_false_2 (Some d = Some "..")) by congruence.
  rewrite andb_false_r. cbn [orb]. apply removelast_last.
Qed.

Lemma split_on_slash_dotdot (a d : string) :
  str_in "/" d = false ->
  str_split_on slash (a +:+ "/" +:+ d +:+ "/..") = str_split_on slash a ++ [d; ".."].
Proof.
  intros Hd. unfold str_split_on.
  change ("/" +:+ d +:+ "/..") with (String slash (d +:+ String slash "..")).
  rewrite !str_fields_app_sep by reflexivity.
  now rewrite (str_fields_single slash d Hd).
Qed.

(** The parent of an entry of [p], normalized, is [p] normalized. *)
Lemma normpath_parent (p d : string) :
  p <> "" -> is_filename d = true ->
  os_path_normpath (os_path_join p [d; ".."]) = os_path_normpath p.
Proof.
  intros Hp Hd. unfold os_path_normpath.
  rewrite initial_slashes_join by assumption.
  apply String.eqb_neq in Hp as Hp'. rewrite Hp'.
  pose proof (is_filename_inv _ Hd) as (_ & _ & _ & Hslash).
  assert (Hq : String.eqb (os_path_join p [d; ".."]) "" = false).
  { apply String.eqb_neq. rewrite join_dotdot by assumption.
    destruct (str_endswith p "/"), p; try congruence; discriminate. }
  rewrite Hq.
  assert (Hc : forall abs,
             normpath_comps abs (str_split_on slash (os_path_join p [d; ".."]))
             = normpath_comps abs (str_split_on slash p)).
  { intros abs. rewrite join_dotdot by assumption.
    destruct (str_endswith p "/") eqn:E.
    - apply str_endswith_app in E as [a ->].
      rewrite str_app_assoc, split_on_slash_dotdot by assumption.
      rewrite <- (str_app_nil_r (a +:+ "/")).
      rewrite str_app_assoc, split_on_slash_snoc by reflexivity.
      change [d; ".."] with ([d] ++ [".."]).
      rewrite app_assoc, !normpath_comps_snoc, normpath_step_empty.
      rewrite (normpath_step_filename _ _ _ Hd).
      now apply normpath_step_dotdot.
    - rewrite split_on_slash_dotdot by assumption.
      change [d; ".."] with ([d] ++ [".."]).
      rewrite app_assoc, !normpath_comps_snoc.
      rewrite (normpath_step_filename _ _ _ Hd).
      now apply normpath_step_dotdot. }
  now rewrite Hc.
Qed.

(** Induction on a tree, with the hypothesis for every entry of a directory. *)
Lemma node_ind_entries (P : node -> Prop) :
  (forall r s, P (File r s)) ->
  (forall es, List.Forall (fun e => P (snd e)) es -> P (Dir es)) ->
  forall n, P n.
Proof.
  intros HF HD. fix IH 1. intros [r s|es]; [apply HF|]. apply HD.
  induction es as [|[k m] es IHes]; constructor; [apply IH|exact IHes].
Qed.

Lemma normpath_nonempty (p : string) : os_path_normpath p <> "".
Proof.
  unfold os_path_normpath. destruct (String.eqb p ""); [discriminate|].
  destruct (String.eqb_spec
              match initial_slashes p with
              | 0%nat => str_join "/" (normpath_comps
                           (negb (Nat.eqb (initial_slashes p) 0)) (str_split_on slash p))
              | 1%nat => "/" +:+ str_join "/" (normpath_comps
                           (negb (Nat.eqb (initial_slashes p) 0)) (str_split_on slash p))
              | _ => "//" +:+ str_join "/" (normpath_comps
                           (negb (Nat.eqb (initial_slashes p) 0)) (str_split_on slash p))
              end "") as [E|E]; [discriminate|exact E].
Qed.

(** Every path [os.walk] reports below a non-empty [top] is non-empty. *)
Lemma walk_paths_nonempty (n : node) :
  forall top, top <> "" ->
    List.Forall (fun t => fst (fst t) <> "") (walk_node top n).
Proof.
  induction n as [r s|es IH] using node_ind_entries; intros top Htop;
    cbn [walk_node]; constructor; [exact Htop|].
  induction IH as [|e es He _ IHes]; cbn [flat_map]; [constructor|].
  apply List.Forall_app. split; [|exact IHes].
  destruct (is_dir (snd e)); [|constructor].
  apply He. now apply os_path_join_nonempty.
Qed.

(** The directory names of the triples of a walk are the names of the
    directories below its top. *)
Lemma walk_dirs_names (n : node) :
  forall top name,
    In name (flat_map triple_dirs (walk_node top n))
    <-> In name (map snd (subdirs_preorder top n)).
Proof.
  induction n as [r s|es IH] using node_ind_entries; intros top name;
    [reflexivity|].
  cbn [walk_node subdirs_preorder flat_map]. unfold triple_dirs at 1.
  cbn [fst snd]. rewrite in_app_iff.
  induction IH as [|e es He _ IHes]; cbn [flat_map]; [cbn; tauto|].
  rewrite flat_map_app, map_app, !in_app_iff.
  unfold dir_names in *. cbn [List.filter].
  destruct (is_dir (snd e)); cbn [map In fst snd].
  - rewrite He. tauto.
  - tauto.
Qed.

(** ** The walk *)

Lemma wf_node_entry (es : list (string * node)) (e : string * node) :
  wf_node (Dir es) -> In e es -> wf_node (snd e).
Proof.
  intros [_ H] Hin. induction es as [|e' es IH]; [destruct Hin|].
  cbn [fold_right] in H. destruct H as [He H].
  destruct Hin as [->|Hin]; [exact He|now apply IH].
Qed.

Lemma height_entry (es : list (string * node)) (e : string * node) (fuel : nat) :
  (height (Dir es) <= S fuel)%nat -> In e es -> (height (snd e) <= fuel)%nat.
Proof.
  cbn [height]. intros H Hin. apply le_S_n in H.
  induction es as [|e' es IH]; [destruct Hin|].
  cbn [fold_right] in H. destruct Hin as [->|Hin]; [lia|apply IH; [lia|exact Hin]].
Qed.

(** The walk of the standard library, given enough fuel for the depth of the
    tree, yields the triples of [walk_node]. *)
Lemma os_walk_rec_walk_node (w : World) (n : node) :
  forall fuel top,
    wf_node n -> stat w top = Some n -> (height n <= fuel)%nat ->
    os_walk_rec fuel w top = walk_node top n.
Proof.
  induction n as [r s|es IH] using node_ind_entries; intros fuel top Hwf Hs Hh.
  - destruct fuel; [reflexivity|]. cbn [os_walk_rec]. unfold os_listdir.
    now rewrite Hs.
  - destruct fuel as [|fuel]; [cbn in Hh; lia|].
    cbn [os_walk_rec walk_node]. unfold os_listdir. rewrite Hs. cbn [fst].
    pose proof (proj1 Hwf) as Hes.
    assert (Hl : forall l, incl l es ->
      List.filter
        (fun name => match fst (os_path_isdir (os_path_join top [name]) w) with
                     | Ret b => b
                     | Raise _ => false
                     end) (map fst l) = dir_names l
      /\ List.filter
           (fun name => negb match fst (os_path_isdir (os_path_join top [name]) w) with
                             | Ret b => b
                             | Raise _ => false
                             end) (map fst l) = nondir_names l
      /\ flat_map (fun name => os_walk_rec fuel w (os_path_join top [name]))
                  (dir_names l)
         = flat_map (fun e => if is_dir (snd e)
                              then walk_node (os_path_join top [fst e]) (snd e)
                              else []) l).
    { induction l as [|[name m] l IHl]; intros Hincl; [now repeat split|].
      assert (Hin : In (name, m) es) by (apply Hincl; now left).
      destruct IHl as (IH1 & IH2 & IH3);
        [intros x Hx; apply Hincl; now right|].
      unfold dir_names, nondir_names in *.
      cbn [map fst snd List.filter flat_map].
      rewrite (isdir_entry w top es name m Hs Hes Hin). cbn [fst].
      rewrite IH1, IH2. destruct (is_dir m) eqn:Em; cbn [negb map fst flat_map].
      - repeat split. rewrite IH3. f_equal.
        rewrite List.Forall_forall in IH. apply (IH (name, m) Hin).
        + apply (wf_node_entry es (name, m) Hwf Hin).
        + apply (stat_entry w top es name m Hs Hes Hin).
        + apply (height_entry es (name, m) fuel Hh Hin).
      - now repeat split. }
    destruct (Hl es (incl_refl es)) as (-> & -> & H3).
    unfold dir_names in H3 |- *. now rewrite H3.
Qed.

Lemma os_walk_rec_sample :
  os_walk_rec 3 sample_world "/src" = walk_of sample_world "/src".
Proof. reflexivity. Qed.

Lemma walk_egg_free (l : list (string * list string * list string)) :
  List.Forall (fun t => egg_free (triple_dirs t)) l
  <-> (forall name, In name (flat_map triple_dirs l) -> is_egg_info name = false).
Proof.
  unfold egg_free. rewrite List.Forall_forall. split.
  - intros H name Hin. apply in_flat_map in Hin as (t & Ht & Hname).
    specialize (H t Ht). rewrite List.Forall_forall in H. now apply H.
  - intros H t Ht. rewrite List.Forall_forall. intros name Hname.
    apply H. apply in_flat_map. eauto.
Qed.

(** C9, as the module has it.  [find_egg_info_dir] goes through the triples of
    the walk in order, and through the directory names of each triple in
    listing order.  The first name that ends with [.egg-info] decides: the
    answer is the normalized parent of that entry, which is the normalized
    path of the triple, that is, of the first directory of the walk (the root
    itself first) that holds such a subdirectory.  The answer is nothing
    exactly when no directory below the root has such a name.  No exception is
    raised and the world is unchanged. *)
Theorem find_egg_info_dir_spec (root : string) (w : World) :
  (forall before path files after dirs_before d dirs_after,
      walk_of w root
        = before ++ (path, dirs_before ++ d :: dirs_after, files) :: after ->
      List.Forall (fun t => egg_free (triple_dirs t)) before ->
      egg_free dirs_before ->
      is_egg_info d = true ->
      find_egg_info_dir root w
        = (Ret (Some (os_path_normpath (os_path_join path [d; ".."]))), w)
      /\ (is_filename d = true ->
          os_path_normpath (os_path_join path [d; ".."]) = os_path_normpath path))
  /\ (find_egg_info_dir root w = (Ret None, w)
      <-> (forall n path name,
              stat w (os_path_normpath (absolute (cwd w) root)) = Some n ->
              In (path, name)
                 (subdirs_preorder (os_path_normpath (absolute (cwd w) root)) n) ->
              is_egg_info name = false))
  /\ (exists r, find_egg_info_dir root w = (Ret r, w)).
Proof.
  rewrite find_egg_info_dir_eq. split; [|split; [|eauto]].
  - intros before path files after dirs_before d dirs_after Hwalk Hbefore Hdirs Hd.
    split.
    + rewrite Hwalk. f_equal. f_equal. apply for_return_first.
      * eapply List.Forall_impl; [|exact Hbefore]. cbn beta. intros t Ht.
        exact (proj2 (egg_info_in_none _ _) Ht).
      * unfold triple_dirs. cbn [fst snd]. now apply egg_info_in_first.
    + intros Hname. apply normpath_parent; [|exact Hname].
      assert (Hin : In (path, dirs_before ++ d :: dirs_after, files) (walk_of w root))
        by (rewrite Hwalk; apply in_elt).
      unfold walk_of in Hin.
      destruct (stat w (os_path_normpath (absolute (cwd w) root))) as [n|];
        [|destruct Hin].
      pose proof (walk_paths_nonempty n _ (normpath_nonempty (absolute (cwd w) root)))
        as Hne.
      rewrite List.Forall_forall in Hne. exact (Hne _ Hin).
  - transitivity (List.Forall (fun t => egg_free (triple_dirs t)) (walk_of w root)).
    + split.
      * intros H. injection H as H. apply for_return_none in H.
        eapply List.Forall_impl; [|exact H]. cbn beta. intros t Ht.
        exact (proj1 (egg_info_in_none _ _) Ht).
      * intros H. f_equal. f_equal. apply for_return_none.
        eapply List.Forall_impl; [|exact H]. cbn beta. intros t Ht.
        exact (proj2 (egg_info_in_none _ _) Ht).
    + rewrite walk_egg_free. unfold walk_of.
      destruct (stat w (os_path_normpath (absolute (cwd w) root))) as [n|].
      * split.
        -- intros H n' path name Hn Hin. injection Hn as <-.
           apply H, walk_dirs_names. change name with (snd (path, name)).
           now apply in_map.
        -- intros H name Hin. apply walk_dirs_names in Hin.
           apply in_map_iff in Hin as ([path name'] & Hname & Hin).
           cbn in Hname. subst name'. now apply (H n path name).
      * split; [discriminate|]. intros _ name [].
Qed.

Lemma find_egg_info_dir_spec_witness :
  find_egg_info_dir "/src" sample_world = (Ret (Some "/src"), sample_world)
  /\ find_egg_info_dir "/usr" sample_world = (Ret None, sample_world).
Proof.
  destruct (find_egg_info_dir_spec "/src" sample_world) as (Hfirst & _).
  destruct (Hfirst [] "/src" [] [("/src/pkg", ["foo.egg-info"], []);
                                 ("/src/pkg/foo.egg-info", [], []);
                                 ("/src/bar.egg-info", [], [])]
              ["pkg"] "bar.egg-info" [])
    as [Hret _]; [reflexivity|constructor|repeat constructor|reflexivity|].
  split; [exact Hret|].
  destruct (find_egg_info_dir_spec "/usr" sample_world) as (_ & Hnone & _).
  apply Hnone. intros n path name Hn Hin. vm_compute in Hn. injection Hn as <-.
  vm_compute in Hin. repeat destruct Hin as [Hin|Hin]; try contradiction;
    injection Hin as <- <-; reflexivity.
Defined.

(** C9 as stated fails.  Below [/src] the walk meets [pkg], then
    [pkg/foo.egg-info], then [bar.egg-info]; the first directory in that order
    whose name ends with the suffix is [pkg/foo.egg-info], with parent
    [/src/pkg].  The function looks at all the names of [/src] before it
    descends, finds [bar.egg-info] there, and answers [/src]. *)
Lemma find_egg_info_dir_not_preorder :
  ~ (forall (w : World) (root : string),
        fst (find_egg_info_dir root w) = Ret (preorder_egg_info_parent w root)).
Proof.
  intros H. specialize (H sample_world "/src"). vm_compute in H. discriminate.
Qed.

(** * Further properties *)

(** ** get_keyword and get_portdir_overlay *)

Lemma str_in_char_cons_false (sep c : ascii) (s : string) :
  Ascii.eqb sep c = false -> str_in (String sep "") s = false ->
  str_in (String sep "") (String c s) = false.
Proof.
  intros Hc Hs. cbn [str_in String.prefix].
  destruct (Ascii.ascii_dec sep c) as [->|_]; [now rewrite Ascii.eqb_refl in Hc|].
  exact Hs.
Qed.

Lemma first_token_no_space (v : string) : str_in " " (first_token v) = false.
Proof.
  induction v as [|c v IH]; cbn [first_token]; [reflexivity|].
  destruct (Ascii.eqb " " c) eqn:E; [reflexivity|].
  now apply str_in_char_cons_false.
Qed.

(** X1. Whatever the configuration, [get_keyword] returns normally, and its
    answer starts with ["~"] and holds no space; the file system, the working
    directory and [ENV] are as before. *)
Theorem get_keyword_tilde (w : World) :
  exists arch w',
    get_keyword w = (Ret arch, w')
    /\ str_startswith arch "~" = true
    /\ str_in " " arch = false
    /\ fs w' = fs w /\ same_process w w'.
Proof.
  unfold get_keyword, bind, try_except, list_index, ENV_get.
  destruct (ENV w !! "ACCEPT_KEYWORDS") as [v|] eqn:E.
  - rewrite str_split_on_head. unfold ret.
    destruct (str_startswith (first_token v) "~") eqn:Et; cbn [negb].
    + exists (first_token v), w. repeat split; auto using first_token_no_space.
      exists []. now rewrite app_nil_r.
    + exists ("~" +:+ first_token v), w. split; [reflexivity|]. split.
      { unfold str_startswith. rewrite str_app_cons. cbn [String.prefix].
        destruct (Ascii.ascii_dec "~" "~"); [apply str_prefix_nil|congruence]. }
      split.
      { rewrite str_app_cons, str_app_nil_l.
        apply str_in_char_cons_false; [reflexivity|apply first_token_no_space]. }
      repeat split. exists []. now rewrite app_nil_r.
  - exists "~x86", (logged w [(ERROR, "No ACCEPT_KEYWORDS found, using ~x86")]).
    repeat split. now eexists.
Qed.

Lemma str_fields_first_token (v : string) :
  no_blank (first_token v) = true ->
  exists rest, str_fields is_space v = first_token v :: rest.
Proof.
  induction v as [|c v IH]; cbn [first_token str_fields]; [now exists []|].
  destruct (Ascii.eqb_spec " " c) as [<-|Hc].
  - intros _. replace (is_space " ") with true by reflexivity. eauto.
  - cbn [no_blank]. intros H. apply andb_true_iff in H as [Hs H].
    apply negb_true_iff in Hs. rewrite Hs.
    destruct (IH H) as [rest ->]. eauto.
Qed.

(** X2. [get_portdir_overlay] raises [KeyError] when [PORTDIR_OVERLAY] is
    unset, and otherwise answers the text before the first space, leaving the
    world alone.  When that text is not empty and holds no other white space,
    it is the first of the overlays [get_repo_names] walks through. *)
Theorem get_portdir_overlay_spec (w : World) :
  (ENV w !! "PORTDIR_OVERLAY" = None ->
     get_portdir_overlay w = (Raise (KeyError "PORTDIR_OVERLAY"), w))
  /\ (forall v, ENV w !! "PORTDIR_OVERLAY" = Some v ->
        get_portdir_overlay w = (Ret (first_token v), w)
        /\ (first_token v <> "" -> no_blank (first_token v) = true ->
            exists others, str_split v = first_token v :: others)).
Proof.
  unfold get_portdir_overlay, bind. split.
  - intros H. now rewrite (ENV_get_none _ _ H).
  - intros v H. rewrite (ENV_get_some _ _ _ H). unfold list_index.
    rewrite str_split_on_head. split; [reflexivity|].
    intros Hne Hnb. destruct (str_fields_first_token v Hnb) as [rest E].
    unfold str_split. rewrite E. cbn [List.filter].
    destruct (first_token v); [congruence|]. cbn [str_nonempty]. eauto.
Qed.

Lemma get_portdir_overlay_spec_witness :
  get_portdir_overlay sample_world = (Ret "/overlay/local", sample_world)
  /\ (exists others,
        str_split "/overlay/local /overlay/none" = "/overlay/local" :: others)
  /\ get_portdir_overlay dist_file_world
     = (Raise (KeyError "PORTDIR_OVERLAY"), dist_file_world).
Proof.
  destruct (get_portdir_overlay_spec sample_world) as [_ H].
  destruct (H "/overlay/local /overlay/none" eq_refl) as [H1 H2].
  split; [exact H1|]. split; [apply H2; [discriminate|reflexivity]|].
  apply (proj1 (get_portdir_overlay_spec dist_file_world)). reflexivity.
Defined.

(** ** find_s_dir and get_workdir *)

(** X3. Without [PORTAGE_TMPDIR] in the configuration, [get_workdir] raises
    [KeyError], and so does [find_s_dir], before it looks at the file system;
    nothing is logged. *)
Theorem find_s_dir_no_tmpdir (p cat : string) (w : World) :
  ENV w !! "PORTAGE_TMPDIR" = None ->
  get_workdir p cat w = (Raise (KeyError "PORTAGE_TMPDIR"), w)
  /\ find_s_dir p cat w = (Raise (KeyError "PORTAGE_TMPDIR"), w).
Proof.
  intros H.
  assert (E : get_workdir p cat w = (Raise (KeyError "PORTAGE_TMPDIR"), w)).
  { unfold get_workdir, get_portage_tmpdir, bind. now rewrite (ENV_get_none _ _ H). }
  split; [exact E|]. unfold find_s_dir. unfold bind at 1. now rewrite E.
Qed.

Lemma find_s_dir_no_tmpdir_witness :
  find_s_dir "foo-1.0" "dev-python" project_world
  = (Raise (KeyError "PORTAGE_TMPDIR"), project_world).
Proof.
  apply (find_s_dir_no_tmpdir "foo-1.0" "dev-python" project_world). reflexivity.
Defined.

(** X4. When the work directory path names a plain file, the listing raises
    [OSError] (not a directory), which [find_s_dir] hands to its caller. *)
Theorem find_s_dir_workdir_is_file (p cat tmpdir : string) (w : World)
    (r : bool) (content : string) :
  ENV w !! "PORTAGE_TMPDIR" = Some tmpdir ->
  stat w (tmpdir +:+ "/portage/" +:+ cat +:+ "/" +:+ p +:+ "/work")
    = Some (File r content) ->
  find_s_dir p cat w = (Raise (OSError "[Errno 20] Not a directory"), w).
Proof.
  intros Henv Hs. unfold find_s_dir. unfold bind at 1.
  rewrite (get_workdir_eq _ _ _ _ Henv). unfold bind at 1, os_listdir.
  now rewrite Hs.
Qed.

Lemma find_s_dir_workdir_is_file_witness :
  find_s_dir "work" "x"
    (mkWorld (Dir [("t", Dir [("portage", Dir [("x", Dir [("work", Dir [("work", File true "")])])])])])
             "/" (<["PORTAGE_TMPDIR" := "/t"]> ∅) [])
  = (Raise (OSError "[Errno 20] Not a directory"),
     mkWorld (Dir [("t", Dir [("portage", Dir [("x", Dir [("work", Dir [("work", File true "")])])])])])
             "/" (<["PORTAGE_TMPDIR" := "/t"]> ∅) []).
Proof.
  apply (find_s_dir_workdir_is_file "work" "x" "/t" _ true ""); reflexivity.
Defined.

(** The loop of [find_s_dir] leaves the world alone, whatever the listing. *)
Lemma find_s_dir_loop_pure (w : World) (workdir : string) (files : list string) :
  forall acc, exists dirs,
    for_fold
      (fun dirs unpacked =>
         bind (os_path_isdir (os_path_join workdir [unpacked]))
              (fun b => if b then ret (dirs ++ [unpacked]) else ret dirs))
      acc files w
    = (Ret dirs, w).
Proof.
  induction files as [|f files IH]; intros acc; cbn [for_fold]; [now exists acc|].
  unfold bind at 1. unfold bind at 1, os_path_isdir at 1.
  destruct (match stat w (os_path_join workdir [f]) with
            | Some (Dir _) => true
            | _ => false
            end); unfold ret at 1; apply IH.
Qed.

(** X5. [find_s_dir] only reads: whatever it answers or raises, the file
    system, the working directory and [ENV] are unchanged, and the log
    changes only when the answer is [None]. *)
Theorem find_s_dir_readonly (p cat : string) (w : World) :
  fs (snd (find_s_dir p cat w)) = fs w
  /\ same_process w (snd (find_s_dir p cat w))
  /\ (fst (find_s_dir p cat w) <> Ret None -> snd (find_s_dir p cat w) = w).
Proof.
  assert (Hw : forall r : result (option string),
             fs w = fs w /\ same_process w w /\ (r <> Ret None -> w = w)).
  { repeat split. exists []. now rewrite app_nil_r. }
  destruct (find_s_dir p cat w) as [r w'] eqn:E. cbn [fst snd].
  unfold find_s_dir in E. unfold bind at 1 in E.
  unfold get_workdir, get_portage_tmpdir, ENV_get in E. unfold bind at 1 in E.
  destruct (ENV w !! "PORTAGE_TMPDIR") as [tmpdir|];
    [|injection E as <- <-; apply Hw].
  unfold ret at 1 in E. unfold bind at 1, os_listdir in E.
  destruct (stat w (tmpdir +:+ "/portage/" +:+ cat +:+ "/" +:+ p +:+ "/work"))
    as [[rd c|es]|]; [injection E as <- <-; apply Hw| |injection E as <- <-; apply Hw].
  unfold bind at 1 in E.
  destruct (find_s_dir_loop_pure w
              (tmpdir +:+ "/portage/" +:+ cat +:+ "/" +:+ p +:+ "/work")
              (map fst es) []) as [dirs Hl].
  rewrite Hl in E.
  destruct dirs as [|d [|d' dirs]]; cbn [length Nat.eqb] in E;
    [injection E as <- <-; apply Hw|cbn in E; injection E as <- <-; apply Hw|].
  unfold bind, log_error in E. rewrite !emit_logged in E. unfold ret in E.
  injection E as <- <-. split; [reflexivity|]. split; [|congruence].
  repeat split. cbn. rewrite <- app_assoc. now eexists.
Qed.

Lemma stat_join_empty (w : World) (top : string) :
  top <> "" -> stat w (os_path_join top [""]) = stat w top.
Proof.
  intros Htop. unfold os_path_join. cbn [fold_left]. unfold join_step.
  replace (str_startswith "" "/") with false by reflexivity.
  apply String.eqb_neq in Htop as Htop'. rewrite Htop'. cbn [orb].
  destruct (str_endswith top "/"); [now rewrite str_app_nil_r|].
  unfold stat. rewrite Htop'.
  destruct (String.eqb_spec (top +:+ "/" +:+ "") "") as [E|_].
  { destruct top; [congruence|discriminate]. }
  unfold path_comps. rewrite absolute_app by assumption.
  rewrite split_on_slash_snoc by reflexivity.
  now rewrite normpath_comps_snoc, normpath_step_empty.
Qed.

(** X6. Whenever [find_s_dir] answers a string, joining it to the work
    directory gives a directory: the single unpacked directory, or, for the
    empty string, the work directory itself. *)
Theorem find_s_dir_answer_is_directory (p cat tmpdir : string) (w w' : World)
    (es : list (string * node)) (s : string) :
  ENV w !! "PORTAGE_TMPDIR" = Some tmpdir ->
  stat w (tmpdir +:+ "/portage/" +:+ cat +:+ "/" +:+ p +:+ "/work") = Some (Dir es) ->
  wf_entries es ->
  find_s_dir p cat w = (Ret (Some s), w') ->
  w' = w
  /\ fst (os_path_isdir
            (os_path_join (tmpdir +:+ "/portage/" +:+ cat +:+ "/" +:+ p +:+ "/work") [s])
            w) = Ret true.
Proof.
  intros Henv Hs Hwf. unfold find_s_dir. unfold bind at 1.
  rewrite (get_workdir_eq _ _ _ _ Henv). unfold bind at 1.
  unfold os_listdir. rewrite Hs. unfold bind at 1.
  rewrite (find_s_dir_loop w _ es Hs Hwf es []) by apply incl_refl.
  rewrite app_nil_l.
  set (workdir := tmpdir +:+ "/portage/" +:+ cat +:+ "/" +:+ p +:+ "/work") in *.
  assert (Hne : workdir <> "").
  { intros E. unfold stat in Hs. now rewrite E in Hs. }
  destruct (dir_names es) as [|d [|d' ds]] eqn:Ed; cbn [length Nat.eqb].
  - intros H. injection H as <- <-. split; [reflexivity|].
    unfold os_path_isdir. now rewrite stat_join_empty, Hs.
  - change (list_index [d] 0) with (@ret string d). unfold bind, ret.
    intros H. injection H as <- <-. split; [reflexivity|].
    assert (Hin : In d (dir_names es)) by (rewrite Ed; now left).
    unfold dir_names in Hin. apply in_map_iff in Hin as ([name m] & Hname & Hin).
    cbn in Hname. subst name. apply filter_In in Hin as [Hin Hm]. cbn in Hm.
    rewrite (isdir_entry w workdir es d m Hs Hwf Hin). cbn. now rewrite Hm.
  - unfold bind, log_error. rewrite !emit_logged. unfold ret. discriminate.
Qed.

Lemma find_s_dir_answer_is_directory_witness :
  fst (os_path_isdir "/tmp/portage/dev-python/foo-1.0/work/foo-1.0" sample_world)
  = Ret true.
Proof.
  apply (find_s_dir_answer_is_directory "foo-1.0" "dev-python" "/tmp"
           sample_world sample_world
           [("foo-1.0", Dir []); ("README", File true "")] "foo-1.0");
    [reflexivity|reflexivity|now apply (bool_decide_unpack _)|reflexivity].
Defined.

(** ** unpack_ebuild *)

Lemma assoc_set_entry_ne {A : Type} (k k' : string) (v : A) (es : list (string * A)) :
  k' <> k -> assoc k' (set_entry k v es) = assoc k' es.
Proof.
  intros Hne. induction es as [|[k0 v0] es IH]; cbn [set_entry assoc]; [reflexivity|].
  destruct (String.eqb_spec k0 k) as [->|Hk]; cbn [assoc].
  - apply String.eqb_neq in Hne. rewrite String.eqb_sym in Hne. now rewrite Hne.
  - now rewrite IH.
Qed.

Lemma assoc_del_entry_ne {A : Type} (k k' : string) (es : list (string * A)) :
  k' <> k -> assoc k' (del_entry k es) = assoc k' es.
Proof.
  intros Hne. induction es as [|[k0 v0] es IH]; cbn [del_entry assoc]; [reflexivity|].
  destruct (String.eqb_spec k0 k) as [->|Hk]; cbn [assoc].
  - rewrite IH. apply String.eqb_neq in Hne. rewrite String.eqb_sym in Hne.
    now rewrite Hne.
  - now rewrite IH.
Qed.

(** Where there is no plain file, nothing can be unlinked. *)
Lemma unlink_at_none (cs : list string) :
  forall n, (forall r c, lookup_node n cs <> Some (File r c)) ->
            unlink_at n cs = None.
Proof.
  induction cs as [|c cs IH]; intros n H; [now destruct n|].
  destruct n as [r s|es]; [reflexivity|]. cbn [unlink_at]. cbn [lookup_node] in H.
  destruct (assoc c es) as [m|]; [|reflexivity].
  destruct cs as [|c' cs'].
  - destruct m as [r s|es']; [|reflexivity]. now specialize (H r s).
  - now rewrite (IH m H).
Qed.

(** Unlinking one plain file leaves every other plain file in place. *)
Lemma unlink_at_keeps_files (cs : list string) :
  forall n n' cs' r c,
    unlink_at n cs = Some n' -> cs' <> cs ->
    lookup_node n cs' = Some (File r c) ->
    lookup_node n' cs' = Some (File r c).
Proof.
  induction cs as [|k cs IH]; intros n n' cs' r c Hu Hne Hl;
    [now destruct n|].
  destruct n as [r0 s0|es]; [discriminate|]. cbn [unlink_at] in Hu.
  destruct (assoc k es) as [m|] eqn:Ea; [|discriminate].
  destruct cs' as [|k' cs']; [discriminate|]. cbn [lookup_node] in Hl |- *.
  destruct cs as [|k2 cs2].
  - destruct m as [rm sm|esm]; [|discriminate]. injection Hu as <-.
    cbn [lookup_node]. destruct (String.eqb_spec k' k) as [->|Hk].
    + rewrite Ea in Hl. destruct cs'; [congruence|discriminate].
    + now rewrite assoc_del_entry_ne.
  - destruct (unlink_at m (k2 :: cs2)) as [m'|] eqn:Em; [|discriminate].
    injection Hu as <-. cbn [lookup_node].
    destruct (String.eqb_spec k' k) as [->|Hk].
    + rewrite Ea in Hl. rewrite (assoc_set_entry _ _ _ _ Ea).
      apply (IH m m' cs' r c Em); [congruence|exact Hl].
    + now rewrite assoc_set_entry_ne.
Qed.

(** X7. When the command exits with status 0, [unpack_ebuild] returns at once:
    the output is not looked at, nothing is logged, and the file system is the
    one the command left, even if the output quotes the misnamed-recipe
    message. *)
Theorem unpack_ebuild_status_zero
    (getstatusoutput : string -> World -> Z * string * node)
    (ebuild_path : string) (w : World) (output : string) (root : node) :
  getstatusoutput (ebuild_cmd ebuild_path) w = (0, output, root) ->
  unpack_ebuild getstatusoutput ebuild_path w = (Ret tt, with_fs w root)
  /\ log (snd (unpack_ebuild getstatusoutput ebuild_path w)) = log w
  /\ stat (snd (unpack_ebuild getstatusoutput ebuild_path w)) ebuild_path
     = stat (with_fs w root) ebuild_path.
Proof.
  intros H. rewrite (unpack_ebuild_success _ _ _ _ _ H). now repeat split.
Qed.

Lemma unpack_ebuild_status_zero_witness :
  str_in misnamed_marker "QA: foo does not follow correct package syntax" = true
  /\ unpack_ebuild ebuild_fine_noisy "/overlay/foo-1.0.ebuild" sample_world
     = (Ret tt, sample_world)
  /\ stat (snd (unpack_ebuild ebuild_fine_noisy "/overlay/foo-1.0.ebuild" sample_world))
          "/overlay/foo-1.0.ebuild"
     = Some (File true "EAPI=2").
Proof.
  split; [reflexivity|].
  destruct (unpack_ebuild_status_zero ebuild_fine_noisy "/overlay/foo-1.0.ebuild"
              sample_world "QA: foo does not follow correct package syntax"
              sample_fs eq_refl) as (H1 & _ & H3).
  split; [exact H1|exact H3].
Defined.

(** X8. On a misnamed recipe whose path names no plain file (it is missing, or
    a directory), the three lines are logged and then the [OSError] of
    [os.unlink] reaches the caller; the file system is the one the command
    left. *)
Theorem unpack_ebuild_unlink_fails
    (getstatusoutput : string -> World -> Z * string * node)
    (ebuild_path : string) (w : World) (status : Z) (output : string) (root : node) :
  getstatusoutput (ebuild_cmd ebuild_path) w = (status, output, root) ->
  status <> 0 ->
  str_in misnamed_marker output = true ->
  (forall r c, stat (with_fs w root) ebuild_path <> Some (File r c)) ->
  exists msg,
    unpack_ebuild getstatusoutput ebuild_path w
      = (Raise (OSError msg),
         logged (with_fs w root)
           [(ERROR, output);
            (ERROR, "Misnamed ebuild: " +:+ ebuild_path);
            (ERROR, "Try using -n or -v to force PN or PV")]).
Proof.
  intros H Hs Hm Hf.
  unfold unpack_ebuild, bind, commands_getstatusoutput.
  fold (ebuild_cmd ebuild_path). rewrite H.
  apply Z.eqb_neq in Hs. rewrite Hs. cbn [negb].
  fold misnamed_marker. rewrite Hm.
  unfold log_error. rewrite !emit_logged, !logged_logged. cbn [app].
  unfold os_unlink. unfold stat in Hf. cbn [fs cwd logged with_fs] in *.
  destruct (String.eqb ebuild_path "") eqn:Ee; [eauto|].
  rewrite (unlink_at_none _ _ Hf). eauto.
Qed.

Lemma unpack_ebuild_unlink_fails_witness :
  exists msg,
    unpack_ebuild ebuild_misnamed "/overlay/gone.ebuild" sample_world
      = (Raise (OSError msg),
         logged sample_world
           [(ERROR, "!!! foo.ebuild does not follow correct package syntax.");
            (ERROR, "Misnamed ebuild: /overlay/gone.ebuild");
            (ERROR, "Try using -n or -v to force PN or PV")]).
Proof.
  apply (unpack_ebuild_unlink_fails ebuild_misnamed "/overlay/gone.ebuild"
           sample_world 256
           "!!! foo.ebuild does not follow correct package syntax." sample_fs);
    [reflexivity|lia|reflexivity|discriminate].
Defined.

(** X9. When [unpack_ebuild] returns after a misnamed-recipe run, only the
    recipe is gone: every plain file at another place that the command left is
    still there with its contents. *)
Theorem unpack_ebuild_keeps_other_files
    (getstatusoutput : string -> World -> Z * string * node)
    (ebuild_path : string) (w w' : World) (status : Z) (output : string)
    (root : node) :
  getstatusoutput (ebuild_cmd ebuild_path) w = (status, output, root) ->
  status <> 0 ->
  str_in misnamed_marker output = true ->
  unpack_ebuild getstatusoutput ebuild_path w = (Ret tt, w') ->
  forall other r c,
    path_comps (cwd w) other <> path_comps (cwd w) ebuild_path ->
    stat (with_fs w root) other = Some (File r c) ->
    stat w' other = Some (File r c).
Proof.
  intros H Hs Hm Hr other r c Hne Hf.
  unfold unpack_ebuild, bind, commands_getstatusoutput in Hr.
  fold (ebuild_cmd ebuild_path) in Hr. rewrite H in Hr.
  apply Z.eqb_neq in Hs. rewrite Hs in Hr. cbn [negb] in Hr.
  fold misnamed_marker in Hr. rewrite Hm in Hr.
  unfold log_error in Hr. rewrite !emit_logged in Hr.
  unfold os_unlink in Hr. cbn [fs cwd logged with_fs] in Hr.
  destruct (String.eqb ebuild_path ""); [discriminate|].
  destruct (unlink_at root (path_comps (cwd w) ebuild_path)) as [root'|] eqn:Eu;
    [|discriminate].
  injection Hr as <-. unfold stat in Hf |- *. cbn [fs cwd logged with_fs] in *.
  destruct (String.eqb other ""); [discriminate|].
  exact (unlink_at_keeps_files _ _ _ _ _ _ Eu Hne Hf).
Qed.

Lemma unpack_ebuild_keeps_other_files_witness :
  stat (snd (unpack_ebuild ebuild_misnamed "/overlay/foo-1.0.ebuild" sample_world))
       "/overlay/local/profiles/repo_name"
  = Some (File true "").
Proof.
  apply (unpack_ebuild_keeps_other_files ebuild_misnamed "/overlay/foo-1.0.ebuild"
           sample_world _ 256
           "!!! foo.ebuild does not follow correct package syntax." sample_fs);
    [reflexivity|lia|reflexivity|reflexivity|discriminate|reflexivity].
Defined.

(** X10. [unpack_ebuild] either returns or raises [OSError], nothing else; the
    working directory and [ENV] are never changed and log records are only
    added. *)
Theorem unpack_ebuild_outcomes
    (getstatusoutput : string -> World -> Z * string * node)
    (ebuild_path : string) (w : World) :
  (fst (unpack_ebuild getstatusoutput ebuild_path w) = Ret tt
   \/ exists msg,
        fst (unpack_ebuild getstatusoutput ebuild_path w) = Raise (OSError msg))
  /\ same_process w (snd (unpack_ebuild getstatusoutput ebuild_path w)).
Proof.
  unfold unpack_ebuild, bind, commands_getstatusoutput.
  destruct (getstatusoutput _ w) as [[status output] root].
  destruct (negb (status =? 0)).
  - destruct (str_in _ output).
    + unfold log_error. rewrite !emit_logged, !logged_logged. unfold os_unlink.
      destruct (if String.eqb ebuild_path "" then None else _) as [root'|];
        cbn [fst snd].
      * split; [now left|]. repeat split. now eexists.
      * split; [right; eauto|]. repeat split. now eexists.
    + unfold log_error. rewrite !emit_logged. unfold raise. cbn [fst snd].
      split; [right; eauto|]. repeat split. now eexists.
  - cbn [fst snd]. split; [now left|]. repeat split. exists [].
    cbn. now rewrite app_nil_r.
Qed.

(** ** get_repo_names *)

(** X11. [get_repo_names] needs both variables: without [PORTDIR] it raises
    [KeyError] for it, and with [PORTDIR] but without [PORTDIR_OVERLAY] it
    raises [KeyError] for that one; in both cases before any root is looked
    at, so nothing is logged. *)
Theorem get_repo_names_missing_variable (w : World) :
  (ENV w !! "PORTDIR" = None ->
     get_repo_names w = (Raise (KeyError "PORTDIR"), w))
  /\ (forall portdir,
        ENV w !! "PORTDIR" = Some portdir ->
        ENV w !! "PORTDIR_OVERLAY" = None ->
        get_repo_names w = (Raise (KeyError "PORTDIR_OVERLAY"), w)).
Proof.
  split.
  - intros H. unfold get_repo_names. unfold bind at 1.
    now rewrite (ENV_get_none _ _ H).
  - intros portdir Hp Ho. unfold get_repo_names. unfold bind at 1.
    rewrite (ENV_get_some _ _ _ Hp). unfold bind at 1.
    now rewrite (ENV_get_none _ _ Ho).
Qed.

Lemma get_repo_names_missing_variable_witness :
  get_repo_names project_world = (Raise (KeyError "PORTDIR"), project_world)
  /\ get_repo_names (mkWorld sample_fs "/" (<["PORTDIR" := "/usr/portage"]> ∅) [])
     = (Raise (KeyError "PORTDIR_OVERLAY"),
        mkWorld sample_fs "/" (<["PORTDIR" := "/usr/portage"]> ∅) []).
Proof.
  split.
  - apply (proj1 (get_repo_names_missing_variable project_world)). reflexivity.
  - apply (proj2 (get_repo_names_missing_variable
                    (mkWorld sample_fs "/" (<["PORTDIR" := "/usr/portage"]> ∅) []))
             "/usr/portage"); reflexivity.
Defined.

Lemma record_roots_sound (w : World) (roots : list string) :
  forall (treemap : gmap string string) name path,
    fold_left (record_root w) roots treemap !! name = Some path ->
    treemap !! name = Some path
    \/ (In path roots /\ read_repo_name w path = Some name).
Proof.
  induction roots as [|root roots IH]; intros treemap name path H;
    cbn [fold_left] in H; [now left|].
  destruct (IH _ _ _ H) as [H'|[Hin Hr]]; [|right; split; [now right|exact Hr]].
  unfold record_root in H'.
  destruct (read_repo_name w root) as [name'|] eqn:E; [|now left].
  destruct (decide (name' = name)) as [->|Hne].
  - rewrite lookup_insert_eq in H'. injection H' as <-.
    right. split; [now left|exact E].
  - rewrite lookup_insert_ne in H' by exact Hne. now left.
Qed.

(** X12. Every entry of the mapping [get_repo_names] returns comes from a
    root it visited: the value is one of the roots, and the key is the name
    read from that root's marker file. *)
Theorem get_repo_names_entries_sound (w : World) (portdir overlay : string) :
  ENV w !! "PORTDIR" = Some portdir ->
  ENV w !! "PORTDIR_OVERLAY" = Some overlay ->
  exists treemap : gmap string string,
    fst (get_repo_names w) = Ret treemap
    /\ forall name path,
         treemap !! name = Some path ->
         In path (porttrees_of w portdir overlay)
         /\ read_repo_name w path = Some name.
Proof.
  intros Hp Ho. rewrite (get_repo_names_eq w _ _ Hp Ho).
  eexists. split; [reflexivity|]. intros name path H.
  apply record_roots_sound in H as [H|H]; [|exact H].
  now rewrite lookup_empty in H.
Qed.

Lemma get_repo_names_entries_sound_witness :
  exists treemap : gmap string string,
    fst (get_repo_names sample_world) = Ret treemap
    /\ forall name path,
         treemap !! name = Some path ->
         In path ["/usr/portage"; "/overlay/local"; "/overlay/none"]
         /\ read_repo_name sample_world path = Some name.
Proof.
  exact (get_repo_names_entries_sound sample_world "/usr/portage"
           "/overlay/local /overlay/none" eq_refl eq_refl).
Defined.

Lemma str_fields_all_blank (s : string) :
  all_blank s = true -> List.filter str_nonempty (str_fields is_space s) = [].
Proof.
  induction s as [|c s IH]; cbn [all_blank str_fields]; [reflexivity|].
  intros H. apply andb_true_iff in H as [-> H]. cbn [List.filter str_nonempty].
  now apply IH.
Qed.

(** X13. With an empty or blank [PORTDIR_OVERLAY] only [PORTDIR] is visited:
    the mapping holds its name alone when the marker can be read, and is empty,
    with one warning, when it cannot. *)
Theorem get_repo_names_blank_overlay (w : World) (portdir overlay : string) :
  ENV w !! "PORTDIR" = Some portdir ->
  ENV w !! "PORTDIR_OVERLAY" = Some overlay ->
  all_blank overlay = true ->
  get_repo_names w
    = match read_repo_name w portdir with
      | Some name => (Ret {[name := portdir]}, w)
      | None => (Ret ∅, logged w [(WARNING, "No repo_name in " +:+ portdir)])
      end.
Proof.
  intros Hp Ho Hb. rewrite (get_repo_names_eq w _ _ Hp Ho).
  unfold porttrees_of, str_split. rewrite (str_fields_all_blank _ Hb).
  cbn [map fold_left]. unfold repo_warnings, record_root. cbn [flat_map].
  destruct (read_repo_name w portdir) as [name|].
  - cbn [app]. now rewrite logged_nil, insert_empty.
  - now rewrite app_nil_r.
Qed.

Lemma get_repo_names_blank_overlay_witness :
  get_repo_names
    (mkWorld sample_fs "/"
       (<["PORTDIR" := "/usr/portage"]> (<["PORTDIR_OVERLAY" := "  "]> ∅)) [])
  = (Ret {["gentoo" := "/usr/portage"]},
     mkWorld sample_fs "/"
       (<["PORTDIR" := "/usr/portage"]> (<["PORTDIR_OVERLAY" := "  "]> ∅)) []).
Proof.
  apply (get_repo_names_blank_overlay
           (mkWorld sample_fs "/"
              (<["PORTDIR" := "/usr/portage"]> (<["PORTDIR_OVERLAY" := "  "]> ∅)) [])
           "/usr/portage" "  "); reflexivity.
Defined.

(** ** make_overlay_dir *)

Lemma assoc_app_l {A : Type} (k : string) (v : A) (es l : list (string * A)) :
  assoc k es = Some v -> assoc k (es ++ l) = Some v.
Proof.
  induction es as [|[k0 v0] es IH]; cbn [app assoc]; [discriminate|].
  destruct (String.eqb k0 k); [trivial|exact IH].
Qed.

(** [os.makedirs] leaves every plain file in place. *)
Lemma makedirs_at_keeps_files (cs : list string) :
  forall n n' cs' r c,
    makedirs_at n cs = Some n' ->
    lookup_node n cs' = Some (File r c) ->
    lookup_node n' cs' = Some (File r c).
Proof.
  induction cs as [|k cs IH]; intros n n' cs' r c Hm Hl; [now destruct n|].
  destruct n as [r0 s0|es]; [discriminate|]. cbn [makedirs_at] in Hm.
  destruct cs' as [|k' cs']; [discriminate|]. cbn [lookup_node] in Hl.
  destruct (assoc k' es) as [m0|] eqn:Ek'; [|discriminate].
  destruct (assoc k es) as [m|] eqn:Ea.
  - destruct (makedirs_at m cs) as [m'|] eqn:Em; [|discriminate].
    injection Hm as <-. cbn [lookup_node].
    destruct (String.eqb_spec k' k) as [->|Hk].
    + rewrite (assoc_set_entry _ _ _ _ Ea). rewrite Ea in Ek'.
      injection Ek' as <-. exact (IH m m' cs' r c Em Hl).
    + rewrite assoc_set_entry_ne by exact Hk. now rewrite Ek'.
  - injection Hm as <-. cbn [lookup_node].
    now rewrite (assoc_app_l _ _ _ _ Ek').
Qed.

(** What exists already cannot be made: the error is "File exists". *)
Lemma makedirs_at_exists (cs : list string) :
  forall n m, lookup_node n cs = Some m ->
              makedirs_at n cs = None
              /\ makedirs_error n cs = "[Errno 17] File exists".
Proof.
  induction cs as [|k cs IH]; intros n m H; [now destruct n|].
  destruct n as [r s|es]; [discriminate|]. cbn [lookup_node] in H.
  cbn [makedirs_at makedirs_error].
  destruct (assoc k es) as [m0|]; [|discriminate].
  destruct (IH m0 m H) as [-> ->]. now split.
Qed.

(** X14. [make_overlay_dir] never lets [OSError] through: it either returns
    the joined path, adding nothing to the log, or raises [SystemExit] with
    code 2 after logging exactly one error.  The working directory and [ENV]
    are unchanged either way. *)
Theorem make_overlay_dir_outcomes (category pn overlay : string) (w : World) :
  ((fst (make_overlay_dir category pn overlay w)
      = Ret (os_path_join overlay [category; pn])
    /\ log (snd (make_overlay_dir category pn overlay w)) = log w)
   \/ (fst (make_overlay_dir category pn overlay w) = Raise (SystemExit 2)
       /\ exists msg,
            log (snd (make_overlay_dir category pn overlay w))
            = log w ++ [(ERROR, msg)]))
  /\ cwd (snd (make_overlay_dir category pn overlay w)) = cwd w
  /\ ENV (snd (make_overlay_dir category pn overlay w)) = ENV w.
Proof.
  unfold make_overlay_dir, bind, try_except, os_path_isdir.
  generalize (os_path_join overlay [category; pn]). intros d.
  destruct (match stat w d with Some (Dir _) => true | _ => false end);
    cbn [negb]; [cbn; auto|].
  unfold os_makedirs.
  destruct (if String.eqb d "" then None else _) as [root|]; cbn; [auto|].
  split; [right|auto]. split; [reflexivity|eauto].
Qed.

(** X15. A call of [make_overlay_dir] that returns has kept every plain file:
    whatever path named a plain file before names the same file after. *)
Theorem make_overlay_dir_keeps_files (category pn overlay : string)
    (w w' : World) (path : string) :
  make_overlay_dir category pn overlay w = (Ret path, w') ->
  forall other r c,
    stat w other = Some (File r c) -> stat w' other = Some (File r c).
Proof.
  unfold make_overlay_dir, bind, try_except, os_path_isdir.
  generalize (os_path_join overlay [category; pn]). intros d.
  destruct (match stat w d with Some (Dir _) => true | _ => false end);
    cbn [negb].
  - unfold ret. intros H. now injection H as _ <-.
  - unfold os_makedirs.
    destruct (String.eqb d ""); [discriminate|].
    destruct (makedirs_at (fs w) (path_comps (cwd w) d)) as [root|] eqn:Em;
      [|discriminate].
    unfold ret. intros H. injection H as _ <-. intros other r c Hs.
    unfold stat in *. cbn [fs cwd with_fs].
    destruct (String.eqb other ""); [discriminate|].
    exact (makedirs_at_keeps_files _ _ _ _ _ _ Em Hs).
Qed.

Lemma make_overlay_dir_keeps_files_witness :
  stat (snd (make_overlay_dir "dev-python" "foo" "/overlay/local" sample_world))
       "/overlay/foo-1.0.ebuild"
  = Some (File true "EAPI=2").
Proof.
  apply (make_overlay_dir_keeps_files "dev-python" "foo" "/overlay/local"
           sample_world _ "/overlay/local/dev-python/foo");
    reflexivity.
Defined.

(** X16. When the joined path names a plain file, [make_overlay_dir] logs
    "File exists" and leaves through [sys.exit(2)]; the file is not replaced. *)
Theorem make_overlay_dir_on_plain_file (category pn overlay : string) (w : World)
    (r : bool) (content : string) :
  stat w (os_path_join overlay [category; pn]) = Some (File r content) ->
  make_overlay_dir category pn overlay w
    = (Raise (SystemExit 2), logged w [(ERROR, "[Errno 17] File exists")]).
Proof.
  unfold make_overlay_dir, bind, try_except, os_path_isdir, os_makedirs.
  generalize (os_path_join overlay [category; pn]). intros d Hs.
  rewrite Hs. cbn [negb]. unfold stat in Hs.
  destruct (String.eqb d ""); [discriminate|].
  destruct (makedirs_at_exists _ _ _ Hs) as [-> ->]. reflexivity.
Qed.

Lemma make_overlay_dir_on_plain_file_witness :
  make_overlay_dir "overlay" "foo-1.0.ebuild" "/" sample_world
    = (Raise (SystemExit 2), logged sample_world [(ERROR, "[Errno 17] File exists")]).
Proof.
  apply (make_overlay_dir_on_plain_file "overlay" "foo-1.0.ebuild" "/" sample_world
           true "EAPI=2").
  reflexivity.
Defined.

(** ** sdist_ebuild: initialize_options and finalize_options *)

Lemma os_makedirs_isdir (d : string) (w w' : World) :
  os_makedirs d w = (Ret tt, w') ->
  os_path_isdir d w' = (Ret true, w') /\ log w' = log w /\ cwd w' = cwd w.
Proof.
  unfold os_makedirs, os_path_isdir, stat.
  destruct (String.eqb d ""); [discriminate|].
  destruct (makedirs_at (fs w) (path_comps (cwd w) d)) as [root|] eqn:E;
    [|discriminate].
  intros H. injection H as <-. cbn [fs cwd log with_fs].
  apply makedirs_at_isdir in E as [es ->]. now repeat split.
Qed.

(** X17. When [finalize_options] returns, [dist_dir] is set (to ["dist"] if it
    was [None], else to what it was), that path is a directory, nothing was
    logged, and finalizing once more changes neither the object nor the
    world. *)
Theorem finalize_options_returns (self self' : sdist_ebuild) (w w' : World) :
  finalize_options self w = (Ret self', w') ->
  dist_dir self' = Some (default "dist" (dist_dir self))
  /\ fst (os_path_isdir (default "dist" (dist_dir self)) w') = Ret true
  /\ log w' = log w
  /\ finalize_options self' w' = (Ret self', w').
Proof.
  unfold finalize_options at 1.
  replace (match dist_dir self with None => "dist" | Some d => d end)
    with (default "dist" (dist_dir self)) by now destruct (dist_dir self).
  generalize (default "dist" (dist_dir self)). intros d H.
  assert (Hagain : forall w0, os_path_isdir d w0 = (Ret true, w0) ->
            finalize_options (mk_sdist_ebuild (Some d)) w0
            = (Ret (mk_sdist_ebuild (Some d)), w0)).
  { intros w0 Hd. unfold finalize_options, bind. cbn [dist_dir]. now rewrite Hd. }
  unfold bind in H. unfold os_path_isdir at 1 in H.
  destruct (match stat w d with Some (Dir _) => true | _ => false end) eqn:Ed;
    cbn [negb] in H.
  - unfold ret in H. injection H as <- <-. cbn [dist_dir].
    assert (Hd : os_path_isdir d w = (Ret true, w))
      by (unfold os_path_isdir; now rewrite Ed).
    rewrite Hd. repeat split. now apply Hagain.
  - destruct (os_makedirs d w) as [[[]|e] w1] eqn:Em; [|discriminate].
    unfold ret in H. injection H as <- <-. cbn [dist_dir].
    apply os_makedirs_isdir in Em as (Hd & Hlog & _). rewrite Hd.
    repeat split; [exact Hlog|now apply Hagain].
Qed.

Lemma finalize_options_returns_witness :
  exists w',
    finalize_options (mk_sdist_ebuild None) project_world
      = (Ret (mk_sdist_ebuild (Some "dist")), w')
    /\ fst (os_path_isdir "dist" w') = Ret true
    /\ finalize_options (mk_sdist_ebuild (Some "dist")) w'
       = (Ret (mk_sdist_ebuild (Some "dist")), w').
Proof.
  destruct (finalize_options (mk_sdist_ebuild None) project_world) as [r w'] eqn:E.
  vm_compute in E. injection E as <- <-. eexists. split; [reflexivity|].
  destruct (finalize_options_returns (mk_sdist_ebuild None) _ project_world _ eq_refl)
    as (_ & Hd & _ & Hagain).
  split; [exact Hd|exact Hagain].
Defined.

(** X18. When the path of [dist_dir] names a plain file, [finalize_options]
    lets the [OSError] of [os.makedirs] through to its caller: it is neither
    logged nor turned into an exit, and the world is unchanged. *)
Theorem finalize_options_blocked (self : sdist_ebuild) (w : World)
    (r : bool) (content : string) :
  stat w (default "dist" (dist_dir self)) = Some (File r content) ->
  finalize_options self w = (Raise (OSError "[Errno 17] File exists"), w).
Proof.
  unfold finalize_options.
  replace (match dist_dir self with None => "dist" | Some d => d end)
    with (default "dist" (dist_dir self)) by now destruct (dist_dir self).
  generalize (default "dist" (dist_dir self)). intros d Hs.
  unfold bind, os_path_isdir, os_makedirs. rewrite Hs. cbn [negb].
  unfold stat in Hs. destruct (String.eqb d ""); [discriminate|].
  destruct (makedirs_at_exists _ _ _ Hs) as [-> ->]. reflexivity.
Qed.

Lemma finalize_options_blocked_witness :
  finalize_options (mk_sdist_ebuild None) dist_file_world
  = (Raise (OSError "[Errno 17] File exists"), dist_file_world).
Proof.
  apply (finalize_options_blocked (mk_sdist_ebuild None) dist_file_world true "").
  reflexivity.
Defined.

Lemma stat_relative (w : World) (p : string) :
  os_path_isabs (cwd w) = true -> p <> "" -> os_path_isabs p = false ->
  stat w (os_path_join (cwd w) [p]) = stat w p.
Proof.
  intros Hcwd Hp Hrel. unfold stat.
  apply String.eqb_neq in Hp as Hp'. rewrite Hp'.
  assert (Hc : cwd w <> "") by (intros E; rewrite E in Hcwd; discriminate).
  destruct (String.eqb_spec (os_path_join (cwd w) [p]) "") as [E|_].
  { now apply os_path_join_nonempty in E. }
  unfold path_comps. f_equal. f_equal. f_equal.
  unfold absolute at 2. rewrite Hrel. unfold absolute.
  replace (os_path_isabs (os_path_join (cwd w) [p])) with true; [reflexivity|].
  unfold os_path_join. cbn [fold_left]. unfold join_step.
  unfold os_path_isabs in *. rewrite Hrel.
  destruct (String.eqb (cwd w) "" || str_endswith (cwd w) "/");
    now rewrite startswith_app.
Qed.

(** X19. [initialize_options] followed by [finalize_options] forgets whatever
    [dist_dir] held: when the pair returns, [dist_dir] is ["dist"] and, the
    working directory being absolute, [dist] below the working directory is a
    directory. *)
Theorem initialize_finalize_dist (self self' : sdist_ebuild) (w w' : World) :
  os_path_isabs (cwd w) = true ->
  bind (initialize_options self) finalize_options w = (Ret self', w') ->
  dist_dir self' = Some "dist"
  /\ fst (os_path_isdir (os_path_join (cwd w) ["dist"]) w') = Ret true.
Proof.
  intros Hcwd H. unfold bind at 1, initialize_options, ret at 1 in H.
  assert (Hd : os_path_isdir "dist" w' = (Ret true, w') /\ cwd w' = cwd w
               /\ self' = mk_sdist_ebuild (Some "dist")).
  { unfold finalize_options, bind in H. cbn [dist_dir] in H.
    unfold os_path_isdir at 1 in H.
    destruct (match stat w "dist" with Some (Dir _) => true | _ => false end) eqn:Ed;
      cbn [negb] in H.
    - unfold ret in H. injection H as <- <-.
      unfold os_path_isdir. now rewrite Ed.
    - destruct (os_makedirs "dist" w) as [[[]|e] w1] eqn:Em; [|discriminate].
      unfold ret in H. injection H as <- <-.
      apply os_makedirs_isdir in Em as (Hd & _ & Hc). auto. }
  destruct Hd as (Hd & Hc & ->). split; [reflexivity|].
  unfold os_path_isdir in *. rewrite <- Hc.
  rewrite stat_relative; [|now rewrite Hc|discriminate|reflexivity].
  cbn [fst]. now injection Hd as ->.
Qed.

Lemma initialize_finalize_dist_witness :
  exists w',
    bind (initialize_options (mk_sdist_ebuild (Some "out"))) finalize_options
         project_world
      = (Ret (mk_sdist_ebuild (Some "dist")), w')
    /\ fst (os_path_isdir "/home/proj/dist" w') = Ret true.
Proof.
  destruct (bind (initialize_options (mk_sdist_ebuild (Some "out")))
                 finalize_options project_world) as [r w'] eqn:E.
  vm_compute in E. injection E as <- <-. eexists. split; [reflexivity|].
  exact (proj2 (initialize_finalize_dist (mk_sdist_ebuild (Some "out")) _
                  project_world _ eq_refl eq_refl)).
Defined.

(** ** find_egg_info_dir *)

Lemma walk_no_subdirs (top : string) (es : list (string * node)) :
  dir_names es = [] ->
  walk_node top (Dir es) = [(top, [], nondir_names es)].
Proof.
  intros H. cbn [walk_node]. rewrite H. f_equal.
  unfold dir_names in H. induction es as [|e es IH]; [reflexivity|].
  cbn [flat_map List.filter] in *. destruct (is_dir (snd e)); [discriminate|].
  now apply IH.
Qed.

(** X20. [find_egg_info_dir] answers nothing, without raising, when the root
    does not exist, when it is a plain file, and when it is a directory with
    no subdirectory: neither the name of the root itself nor plain files
    called [*.egg-info] count. *)
Theorem find_egg_info_dir_no_subdirs (root : string) (w : World) :
  match stat w (os_path_normpath (absolute (cwd w) root)) with
  | Some (Dir es) => dir_names es = []
  | _ => True
  end ->
  find_egg_info_dir root w = (Ret None, w).
Proof.
  intros H. rewrite find_egg_info_dir_eq. unfold walk_of.
  destruct (stat w (os_path_normpath (absolute (cwd w) root))) as [[r c|es]|];
    [reflexivity| |reflexivity].
  now rewrite (walk_no_subdirs _ es H).
Qed.

Lemma find_egg_info_dir_no_subdirs_witness :
  find_egg_info_dir "/foo.egg-info"
    (mkWorld (Dir [("foo.egg-info", Dir [("PKG-INFO.egg-info", File true "")])])
             "/" ∅ [])
  = (Ret None,
     mkWorld (Dir [("foo.egg-info", Dir [("PKG-INFO.egg-info", File true "")])])
             "/" ∅ [])
  /\ find_egg_info_dir "/nowhere" sample_world = (Ret None, sample_world).
Proof.
  split; apply find_egg_info_dir_no_subdirs; reflexivity.
Defined.

(** ** valid_cpn and ebuild_exists *)

(** X21. [ebuild_exists] answers [True] exactly when the lookup finds at least
    one package, and [valid_cpn] exactly when the validator's answer is
    truthy; both let an exception of the lookup through unchanged, and neither
    touches the world. *)
Theorem package_queries_spec
    (isvalidatom : string -> World -> result Z)
    (find_packages : string -> World -> result (list Package))
    (arg : string) (w : World) :
  (forall pkgs, find_packages arg w = Ret pkgs ->
     ebuild_exists find_packages arg w
     = (Ret (if decide (pkgs = []) then false else true), w))
  /\ (forall e, find_packages arg w = Raise e ->
        ebuild_exists find_packages arg w = (Raise e, w))
  /\ (forall v, isvalidatom arg w = Ret v ->
        valid_cpn isvalidatom arg w
        = (Ret (if decide (v = 0) then false else true), w))
  /\ (forall e, isvalidatom arg w = Raise e ->
        valid_cpn isvalidatom arg w = (Raise e, w)).
Proof.
  unfold ebuild_exists, valid_cpn, bind. repeat split.
  - intros pkgs ->. now destruct pkgs.
  - now intros e ->.
  - intros v ->. destruct (decide (v = 0)) as [->|Hv]; [reflexivity|].
    apply Z.eqb_neq in Hv. now rewrite Hv.
  - now intros e ->.
Qed.

Lemma package_queries_spec_witness :
  ebuild_exists (fun _ _ => Ret [mkPackage (Ret "1.0")]) "dev-python/foo" sample_world
  = (Ret true, sample_world)
  /\ ebuild_exists (fun _ _ => Raise (OtherError "InvalidAtom")) "dev-python/foo"
       sample_world
     = (Raise (OtherError "InvalidAtom"), sample_world).
Proof.
  split.
  - apply (proj1 (package_queries_spec (fun _ _ => Ret 1)
                    (fun _ _ => Ret [mkPackage (Ret "1.0")])
                    "dev-python/foo" sample_world) [mkPackage (Ret "1.0")]).
    reflexivity.
  - apply (proj1 (proj2 (package_queries_spec (fun _ _ => Ret 1)
                    (fun _ _ => Raise (OtherError "InvalidAtom"))
                    "dev-python/foo" sample_world)) (OtherError "InvalidAtom")).
    reflexivity.
Defined.

(** ** What find_egg_info_dir answers is a directory *)

Lemma str_fields_no_sep (sep : ascii) (s : string) :
  List.Forall (fun f => str_in (String sep "") f = false)
              (str_fields (Ascii.eqb sep) s).
Proof.
  induction s as [|c s IH]; cbn [str_fields]; [now repeat constructor|].
  destruct (Ascii.eqb sep c) eqn:E; [now constructor|].
  destruct (str_fields (Ascii.eqb sep) s) as [|f fs'] eqn:Ef;
    [now apply str_fields_nonempty in Ef|].
  inversion IH as [|? ? Hf Hfs]; subst. constructor; [|exact Hfs].
  now apply str_in_char_cons_false.
Qed.

Lemma removelast_Forall {A : Type} (P : A -> Prop) (l : list A) :
  List.Forall P l -> List.Forall P (removelast l).
Proof.
  induction 1 as [|x l Hx Hl IH]; [constructor|]. cbn [removelast].
  destruct l; [constructor|]. now constructor.
Qed.

(** In an absolute path the components [os.path.normpath] keeps are file
    names. *)
Lemma normpath_step_clean (acc : list string) (comp : string) :
  clean_comps acc -> str_in "/" comp = false ->
  clean_comps (normpath_step true acc comp).
Proof.
  intros Hacc Hcomp. unfold normpath_step.
  destruct (String.eqb_spec comp "") as [->|H1]; [exact Hacc|].
  destruct (String.eqb_spec comp ".") as [->|H2]; [exact Hacc|]. cbn [orb].
  destruct (String.eqb_spec comp "..") as [->|H3]; cbn [negb orb andb].
  - destruct (last acc) as [l|] eqn:El.
    + destruct (decide (l = "..")) as [->|Hl].
      * exfalso. apply last_Some in El as [acc' ->].
        apply List.Forall_app in Hacc as [_ Hl]. inversion Hl; subst. discriminate.
      * rewrite bool_decide_eq_false_2 by congruence.
        now apply removelast_Forall.
    + rewrite bool_decide_eq_false_2 by congruence. now apply removelast_Forall.
  - apply List.Forall_app. split; [exact Hacc|]. constructor; [|constructor].
    unfold is_filename. apply String.eqb_neq in H1, H2, H3.
    now rewrite H1, H2, H3, Hcomp.
Qed.

Lemma normpath_comps_clean (xs : list string) :
  List.Forall (fun f => str_in "/" f = false) xs ->
  clean_comps (normpath_comps true xs).
Proof.
  induction xs as [|x xs IH] using rev_ind; intros H; [constructor|].
  apply List.Forall_app in H as [Hxs Hx]. inversion Hx; subst.
  rewrite normpath_comps_snoc. apply normpath_step_clean; auto.
Qed.

Lemma normpath_comps_id (cs : list string) :
  clean_comps cs -> forall abs, normpath_comps abs cs = cs.
Proof.
  intros H abs. unfold normpath_comps.
  assert (G : forall acc, fold_left (normpath_step abs) cs acc = acc ++ cs).
  { induction H as [|c cs Hc Hcs IH]; intros acc; cbn [fold_left].
    - now rewrite app_nil_r.
    - rewrite (normpath_step_filename _ _ _ Hc), IH. now rewrite <- app_assoc. }
  apply G.
Qed.

Lemma str_join_cons (sep x : string) (l : list string) :
  l <> [] -> str_join sep (x :: l) = x +:+ sep +:+ str_join sep l.
Proof. now destruct l. Qed.

Lemma split_join_clean (cs : list string) :
  clean_comps cs -> cs <> [] ->
  str_split_on slash (str_join "/" cs) = cs.
Proof.
  induction 1 as [|c cs Hc Hcs IH]; intros Hne; [congruence|].
  apply is_filename_inv in Hc as (_ & _ & _ & Hc).
  destruct cs as [|c' cs].
  - cbn [str_join]. unfold str_split_on. now apply str_fields_single.
  - rewrite str_join_cons by discriminate.
    rewrite <- (IH ltac:(discriminate)) at 2.
    generalize (str_join "/" (c' :: cs)). intros rest. unfold str_split_on.
    change ("/" +:+ rest) with (String slash rest).
    rewrite str_fields_app_sep by reflexivity.
    now rewrite (str_fields_single slash c Hc).
Qed.

(** For an absolute path, the normalized path names what the path names. *)
Lemma stat_normpath (w : World) (q : string) :
  os_path_isabs q = true -> stat w (os_path_normpath q) = stat w q.
Proof.
  intros Habs.
  assert (Hq : q <> "") by (intros ->; discriminate).
  assert (Hclean : clean_comps (normpath_comps true (str_split_on slash q)))
    by apply normpath_comps_clean, str_fields_no_sep.
  unfold stat. apply String.eqb_neq in Hq as Hq'. rewrite Hq'.
  pose proof (normpath_nonempty q) as Hn. apply String.eqb_neq in Hn. rewrite Hn.
  f_equal. unfold path_comps at 2. unfold absolute. rewrite Habs.
  unfold os_path_normpath. rewrite Hq'.
  unfold os_path_isabs in Habs.
  assert (Hi : initial_slashes q = 1%nat \/ initial_slashes q = 2%nat).
  { unfold initial_slashes. rewrite Habs. destruct (_ && _); auto. }
  set (cs := normpath_comps true (str_split_on slash q)) in *.
  assert (Hsplit : normpath_comps true (str_split_on slash (str_join "/" cs)) = cs).
  { destruct cs as [|c cs'] eqn:Ecs; [reflexivity|].
    rewrite split_join_clean by (auto; discriminate).
    now apply normpath_comps_id. }
  destruct Hi as [-> | ->]; cbn [Nat.eqb negb]; fold cs.
  - replace (String.eqb ("/" +:+ str_join "/" cs) "") with false by reflexivity.
    unfold path_comps, absolute.
    replace (os_path_isabs ("/" +:+ str_join "/" cs)) with true
      by (unfold os_path_isabs; now rewrite startswith_app).
    unfold str_split_on in *.
    change ("/" +:+ str_join "/" cs) with (String slash (str_join "/" cs)).
    cbn [str_fields]. replace (Ascii.eqb slash slash) with true by reflexivity.
    exact Hsplit.
  - replace (String.eqb ("//" +:+ str_join "/" cs) "") with false by reflexivity.
    unfold path_comps, absolute.
    replace (os_path_isabs ("//" +:+ str_join "/" cs)) with true
      by (unfold os_path_isabs; now rewrite startswith_app).
    unfold str_split_on in *.
    change ("//" +:+ str_join "/" cs)
      with (String slash (String slash (str_join "/" cs))).
    cbn [str_fields]. replace (Ascii.eqb slash slash) with true by reflexivity.
    exact Hsplit.
Qed.

Lemma normpath_isabs (q : string) :
  os_path_isabs q = true -> os_path_isabs (os_path_normpath q) = true.
Proof.
  intros Habs. assert (Hq : q <> "") by (intros ->; discriminate).
  unfold os_path_normpath. apply String.eqb_neq in Hq. rewrite Hq.
  unfold initial_slashes. unfold os_path_isabs in Habs. rewrite Habs.
  destruct (_ && _); cbn [Nat.eqb negb].
  - replace (String.eqb ("//" +:+ _) "") with false by reflexivity.
    unfold os_path_isabs. now rewrite startswith_app.
  - replace (String.eqb ("/" +:+ _) "") with false by reflexivity.
    unfold os_path_isabs. now rewrite startswith_app.
Qed.

Lemma absolute_isabs (cwd p : string) :
  os_path_isabs cwd = true -> os_path_isabs (absolute cwd p) = true.
Proof.
  intros Hc. unfold absolute. destruct (os_path_isabs p) eqn:Ep; [exact Ep|].
  assert (Hne : cwd <> "") by (intros ->; discriminate).
  unfold os_path_join. cbn [fold_left]. unfold join_step.
  unfold os_path_isabs in *. rewrite Ep.
  destruct (String.eqb cwd "" || str_endswith cwd "/"); now rewrite startswith_app.
Qed.

Lemma join_entry_isabs (top name : string) :
  top <> "" -> is_filename name = true ->
  os_path_isabs (os_path_join top [name]) = os_path_isabs top.
Proof.
  intros Htop Hname. unfold os_path_join. cbn [fold_left]. unfold join_step.
  rewrite (filename_not_abs _ Hname). unfold os_path_isabs.
  destruct (String.eqb top "" || str_endswith top "/"); now rewrite startswith_app.
Qed.

(** Every triple of a walk over a well-formed tree is about a directory: its
    path names one, and its directory names are that directory's. *)
Lemma walk_node_dirs (w : World) (n : node) :
  forall top, wf_node n -> stat w top = Some n ->
    forall t, In t (walk_node top n) ->
      exists es, stat w (fst (fst t)) = Some (Dir es)
                 /\ wf_entries es
                 /\ triple_dirs t = dir_names es
                 /\ os_path_isabs (fst (fst t)) = os_path_isabs top.
Proof.
  induction n as [r s|es IH] using node_ind_entries; intros top Hwf Hs t Hin;
    [destruct Hin|].
  assert (Htop : top <> "").
  { intros E. unfold stat in Hs. now rewrite E in Hs. }
  cbn [walk_node] in Hin. destruct Hin as [<-|Hin].
  - exists es. cbn [fst snd]. split; [exact Hs|]. split; [apply Hwf|].
    now split.
  - apply in_flat_map in Hin as ([name m] & He & Hin). cbn [fst snd] in Hin.
    destruct (is_dir m) eqn:Em; [|destruct Hin].
    rewrite List.Forall_forall in IH.
    pose proof (proj1 Hwf) as Hes.
    assert (Hname : is_filename name = true).
    { destruct Hes as [_ Hf]. rewrite List.Forall_forall in Hf.
      exact (Hf _ He). }
    destruct (IH (name, m) He (os_path_join top [name])
                 (wf_node_entry es (name, m) Hwf He)
                 (stat_entry w top es name m Hs Hes He) t Hin)
      as (es' & H1 & H2 & H3 & H4).
    exists es'. split; [exact H1|]. split; [exact H2|]. split; [exact H3|].
    rewrite H4. now apply join_entry_isabs.
Qed.

Lemma for_return_some {A R : Type} (body : A -> option R) (l : list A) (r : R) :
  for_return body l = Some r -> exists x, In x l /\ body x = Some r.
Proof.
  induction l as [|x l IH]; cbn [for_return]; [discriminate|].
  destruct (body x) as [r'|] eqn:E.
  - intros H. injection H as ->. exists x. split; [now left|exact E].
  - intros H. destruct (IH H) as (y & Hy & Hb). exists y. split; [now right|exact Hb].
Qed.

(** X22. On a well-formed tree, with an absolute working directory, the path
    [find_egg_info_dir] answers names an existing directory, and that
    directory has a subdirectory whose name ends with [.egg-info]. *)
Theorem find_egg_info_dir_answer_is_directory (root : string) (w w' : World)
    (answer : string) :
  os_path_isabs (cwd w) = true ->
  (forall n, stat w (os_path_normpath (absolute (cwd w) root)) = Some n ->
             wf_node n) ->
  find_egg_info_dir root w = (Ret (Some answer), w') ->
  w' = w
  /\ exists es d,
       stat w answer = Some (Dir es)
       /\ In d (dir_names es)
       /\ is_egg_info d = true.
Proof.
  intros Hcwd Hwf H. rewrite find_egg_info_dir_eq in H. injection H as H <-.
  split; [reflexivity|].
  apply for_return_some in H as (t & Ht & H).
  unfold egg_info_in in H. apply for_return_some in H as (d & Hd & H).
  unfold walk_of in Ht.
  destruct (stat w (os_path_normpath (absolute (cwd w) root))) as [n|] eqn:Es;
    [|destruct Ht].
  destruct (walk_node_dirs w n _ (Hwf n eq_refl) Es t Ht)
    as (es & Hstat & Hes & Hdirs & Habs).
  rewrite normpath_isabs in Habs by now apply absolute_isabs.
  fold (is_egg_info d) in H. destruct (is_egg_info d) eqn:Eegg; [|discriminate].
  injection H as <-. rewrite Hdirs in Hd.
  assert (Hname : is_filename d = true).
  { unfold dir_names in Hd. apply in_map_iff in Hd as ([name m] & <- & Hin).
    apply filter_In in Hin as [Hin _]. destruct Hes as [_ Hf].
    rewrite List.Forall_forall in Hf. exact (Hf _ Hin). }
  assert (Hne : fst (fst t) <> "").
  { intros E. unfold stat in Hstat. now rewrite E in Hstat. }
  exists es, d.
  change (join_step (join_step (fst (fst t)) d) "..")
    with (os_path_join (fst (fst t)) [d; ".."]).
  rewrite normpath_parent, stat_normpath by assumption.
  auto.
Qed.

Lemma find_egg_info_dir_answer_is_directory_witness :
  exists es d,
    stat sample_world "/src" = Some (Dir es)
    /\ In d (dir_names es)
    /\ is_egg_info d = true.
Proof.
  apply (find_egg_info_dir_answer_is_directory "/src" sample_world sample_world "/src");
    [reflexivity| |reflexivity].
  intros n Hn. vm_compute in Hn. injection Hn as <-.
  cbn [wf_node fold_right snd]. repeat split; now apply (bool_decide_unpack _).
Defined.
